(** * Cleaning and aggregation pipeline of the aircraft-accidents notebook

    A shallow embedding of the cells of
    [understanding-aircraft-accidents-brazil.py] that clean the Cenipa
    tables and aggregate them, together with the facts the specification
    states about them.

    The notebook is written against the Python standard library,
    pandas and folium.  The calls it makes ([str.split], [str.strip],
    [float], [locale.atof], [datetime.strptime], boolean-mask selection,
    [groupby(Grouper(freq='M'))], [describe], [folium.Marker]) are
    modelled here after their documented behaviour; every such model
    says so in its comment.

    Conventions.
    - A Python [str] is a [string]; each [ascii] stands for the code
      point of the same number, so the strings covered are those whose
      code points are below 256.
    - A Python exception is a value of [exn]; an expression that may
      raise has type [pyresult].
    - A finite Python [float] is represented by the rational it was read
      from; a text whose value is too large for a binary64 is read as an
      infinity and one whose value is too small as zero, as [float]
      reads them, and rounding to the nearest binary64 is not modelled
      otherwise. *)

From Stdlib Require Import Bool Arith ZArith QArith Qround Qabs Lia List.
From Stdlib Require Import Ascii String.
From Stdlib Require Import Sorted Permutation Lqa.
Import ListNotations.

Local Open Scope string_scope.
Local Open Scope Z_scope.

(** ** Python values and exceptions *)

Inductive exn : Type :=
| ValueError
| TypeError
| AttributeError
| IndexError.

Inductive pyresult (A : Type) : Type :=
| Ok (a : A)
| Raise (e : exn).

Arguments Ok {A} a.
Arguments Raise {A} e.

Definition bind {A B : Type} (r : pyresult A) (k : A -> pyresult B)
  : pyresult B :=
  match r with
  | Ok a => k a
  | Raise e => Raise e
  end.

Notation "x <- r ;; k" := (bind r (fun x => k))
  (at level 61, r at next level, right associativity).

(** A [float]: not-a-number, an infinity, or a finite value. *)
Inductive pyfloat : Type :=
| NaN
| Inf (negative : bool)
| Fin (q : Q).

(** Equality of floats as numbers ([NaN] is identified with itself here:
    the relation compares representations, it is not Python's [==]). *)
Definition float_same (a b : pyfloat) : Prop :=
  match a, b with
  | NaN, NaN => True
  | Inf s, Inf t => s = t
  | Fin p, Fin q => Qeq p q
  | _, _ => False
  end.

(** [pandas.notna] on a float cell. *)
Definition notna (f : pyfloat) : bool :=
  match f with
  | NaN => false
  | _ => true
  end.

(** A cell of a column as [read_csv] leaves it: text, or the float [nan]
    that stands for an empty field, in a column of texts; a float, an
    integer or a boolean, when every field of the column could be read
    as one. *)
Inductive cell : Type :=
| CFloat (f : pyfloat)
| CStr (s : string)
| CInt (n : Z)
| CBool (b : bool).

(** ** Characters and strings *)

Module Str.

Definition code (c : ascii) : Z := Z.of_nat (nat_of_ascii c).

Definition between (lo hi : Z) (c : ascii) : bool :=
  (lo <=? code c) && (code c <=? hi).

(** [re]'s [\d] and the digits [int] and [float] accept; below code point
    256 these are the ten ASCII digits. *)
Definition is_digit (c : ascii) : bool := between 48 57 c.

Definition digit_val (c : ascii) : Z := code c - 48.

(** [str.isspace] and [re]'s [\s] below code point 256. *)
Definition isspace (c : ascii) : bool :=
  between 9 13 c || between 28 32 c || (code c =? 133) || (code c =? 160).

Definition is_empty (s : string) : bool :=
  match s with
  | EmptyString => true
  | String _ _ => false
  end.

Fixpoint lstrip (s : string) : string :=
  match s with
  | EmptyString => EmptyString
  | String c r => if isspace c then lstrip r else s
  end.

Fixpoint rstrip (s : string) : string :=
  match s with
  | EmptyString => EmptyString
  | String c r =>
      let r' := rstrip r in
      if isspace c && is_empty r' then EmptyString else String c r'
  end.

(** [s.strip()] *)
Definition strip (s : string) : string := rstrip (lstrip s).

(** [s.split(sep)] for a one-character separator. *)
Fixpoint split (sep : ascii) (s : string) : list string :=
  match s with
  | EmptyString => [EmptyString]
  | String c r =>
      if Ascii.eqb c sep then EmptyString :: split sep r
      else match split sep r with
           | h :: t => String c h :: t
           | [] => [String c EmptyString]
           end
  end.

(** [l[0]] *)
Definition item0 {A : Type} (l : list A) : pyresult A :=
  match l with
  | x :: _ => Ok x
  | [] => Raise IndexError
  end.

(** [strip_prefix p s] is [Some r] when [s = p ++ r]. *)
Fixpoint strip_prefix (p s : string) : option string :=
  match p, s with
  | EmptyString, _ => Some s
  | String a p', String b s' =>
      if Ascii.eqb a b then strip_prefix p' s' else None
  | String _ _, EmptyString => None
  end.

(** [s.replace(old, new)] for a non-empty [old]: occurrences are replaced
    from the left and do not overlap.  [skip] counts the characters of an
    occurrence already replaced that are still to be passed over. *)
Fixpoint replace_from (old new : string) (skip : nat) (s : string) : string :=
  match s with
  | EmptyString => EmptyString
  | String c r =>
      match skip with
      | S k => replace_from old new k r
      | O =>
          match strip_prefix old s with
          | Some _ => new ++ replace_from old new (Nat.pred (String.length old)) r
          | None => String c (replace_from old new O r)
          end
      end
  end.

Definition replace (old new s : string) : string := replace_from old new O s.

Definition lower (c : ascii) : ascii :=
  if between 65 90 c then ascii_of_nat (nat_of_ascii c + 32) else c.

Fixpoint lowercase (s : string) : string :=
  match s with
  | EmptyString => EmptyString
  | String c r => String (lower c) (lowercase r)
  end.

End Str.

(** ** [float(str)] and [locale.atof] *)

Module PyFloat.
Import Str.

(** The characters [float] removes at both ends of its argument: code
    points above 127 that are spaces are first turned into a blank, and
    then the C locale's [isspace] characters are dropped; the separators
    28 to 31 are therefore kept (and make the parse fail). *)
Definition float_space (c : ascii) : bool :=
  between 9 13 c || (code c =? 32) || (code c =? 133) || (code c =? 160).

Fixpoint lstrip_f (s : string) : string :=
  match s with
  | EmptyString => EmptyString
  | String c r => if float_space c then lstrip_f r else s
  end.

Fixpoint rstrip_f (s : string) : string :=
  match s with
  | EmptyString => EmptyString
  | String c r =>
      let r' := rstrip_f r in
      if float_space c && is_empty r' then EmptyString else String c r'
  end.

(** [sign ::= "+" | "-"], optional. *)
Definition sign (s : string) : bool * string :=
  match s with
  | String "-" r => (true, r)
  | String "+" r => (false, r)
  | _ => (false, s)
  end.

(** [(["_"] digit)*]: the digits read and what is left. *)
Fixpoint digitpart_more (s : string) : list Z * string :=
  match s with
  | EmptyString => ([], s)
  | String c r =>
      if is_digit c then
        let '(ds, r') := digitpart_more r in (digit_val c :: ds, r')
      else if Ascii.eqb c "_" then
        match r with
        | String c2 _ => if is_digit c2 then digitpart_more r else ([], s)
        | EmptyString => ([], s)
        end
      else ([], s)
  end.

(** [digitpart ::= digit (["_"] digit)*] *)
Definition digitpart (s : string) : option (list Z * string) :=
  match s with
  | String c r =>
      if is_digit c then
        let '(ds, r') := digitpart_more r in Some (digit_val c :: ds, r')
      else None
  | EmptyString => None
  end.

(** [number ::= [digitpart] "." digitpart | digitpart ["."]]: the digits
    before the point, the digits after it, and what is left. *)
Definition number (s : string) : option (list Z * list Z * string) :=
  match digitpart s with
  | Some (ip, r) =>
      match r with
      | String "." r2 =>
          match digitpart r2 with
          | Some (fp, r3) => Some (ip, fp, r3)
          | None => Some (ip, [], r2)
          end
      | _ => Some (ip, [], r)
      end
  | None =>
      match s with
      | String "." r2 =>
          match digitpart r2 with
          | Some (fp, r3) => Some ([], fp, r3)
          | None => None
          end
      | _ => None
      end
  end.

Definition digits_value (ds : list Z) : Z :=
  fold_left (fun acc d => 10 * acc + d) ds 0.

(** [exponent ::= ("e" | "E") [sign] digitpart], optional: when the text
    after the letter is not an exponent, nothing is consumed. *)
Definition exponent (s : string) : Z * string :=
  match s with
  | String c r =>
      if Ascii.eqb (lower c) "e" then
        let '(neg, r1) := sign r in
        match digitpart r1 with
        | Some (ds, r2) =>
            ((if neg then - digits_value ds else digits_value ds), r2)
        | None => (0, s)
        end
      else (0, s)
  | EmptyString => (0, s)
  end.

Definition decimal_value (neg : bool) (ip fp : list Z) (e : Z) : Q :=
  let m := digits_value (ip ++ fp) in
  let q := (inject_Z m * Qpower (10 # 1) (e - Z.of_nat (List.length fp)))%Q in
  if neg then Qopp q else q.

(** Half way between the largest binary64, [2^1024 - 2^971], and
    [2^1024]: a value of this size or more is rounded to an infinity. *)
Definition overflow : Q := inject_Z (2 ^ 1024 - 2 ^ 970).

(** Half of the smallest positive binary64, [2^-1074]: a value of this
    size or less is rounded to zero. *)
Definition underflow : Q := 1 # (2 ^ 1075).

(** The float a decimal value is read as: an infinity of its sign when
    it is too large, zero when it is too small (the two zeros are not
    told apart), the value itself otherwise, which stands for the
    binary64 next to it. *)
Definition read_float (neg : bool) (q : Q) : pyfloat :=
  if Qle_bool overflow (Qabs q) then Inf neg
  else if Qle_bool (Qabs q) underflow then Fin 0
  else Fin q.

(** [float(s)] for a [str] argument. *)
Definition float_of_string (s : string) : pyresult pyfloat :=
  let '(neg, body) := sign (rstrip_f (lstrip_f s)) in
  let low := lowercase body in
  if String.eqb low "inf" || String.eqb low "infinity" then Ok (Inf neg)
  else if String.eqb low "nan" then Ok NaN
  else
    match number body with
    | Some (ip, fp, r) =>
        match exponent r with
        | (e, EmptyString) =>
            Ok (read_float neg (decimal_value neg ip fp e))
        | (_, String _ _) => Raise ValueError
        end
    | None => Raise ValueError
    end.

(** The two entries of [locale.localeconv()] that [locale.delocalize]
    reads. *)
Record lconv : Type := mk_lconv {
  thousands_sep : string;
  decimal_point : string
}.

(** [locale.setlocale(locale.LC_ALL, 'en_US.UTF-8')] *)
Definition en_US : lconv := mk_lconv "," ".".

(** A locale with a decimal comma, for comparison; the notebook never
    selects it. *)
Definition pt_BR : lconv := mk_lconv "." ",".

(** [locale.delocalize]: drop the grouping separator, then write the
    decimal point as a dot; an empty separator is left alone. *)
Definition delocalize (conv : lconv) (s : string) : string :=
  let s1 := if is_empty (thousands_sep conv) then s
            else replace (thousands_sep conv) "" s in
  if is_empty (decimal_point conv) then s1
  else replace (decimal_point conv) "." s1.

(** [locale.atof(s)] is [float(delocalize(s))], for a [str] argument. *)
Definition atof (conv : lconv) (s : string) : pyresult pyfloat :=
  float_of_string (delocalize conv s).

End PyFloat.

(** ** [datetime] and [datetime.strptime] *)

Module Strptime.
Import Str.

Record datetime : Type := mk_datetime {
  year : Z;
  month : Z;
  day : Z;
  hour : Z;
  minute : Z;
  second : Z
}.

Definition is_leap (y : Z) : bool :=
  (y mod 4 =? 0) && (negb (y mod 100 =? 0) || (y mod 400 =? 0)).

Definition days_in_month (y m : Z) : Z :=
  if m =? 2 then (if is_leap y then 29 else 28)
  else if (m =? 4) || (m =? 6) || (m =? 9) || (m =? 11) then 30
  else 31.

Definition valid_date (y m d : Z) : bool :=
  (1 <=? y) && (y <=? 9999) && (1 <=? m) && (m <=? 12)
  && (1 <=? d) && (d <=? days_in_month y m).

Definition valid_time (hh mi ss : Z) : bool :=
  (0 <=? hh) && (hh <=? 23) && (0 <=? mi) && (mi <=? 59)
  && (0 <=? ss) && (ss <=? 59).

(** The constructor [datetime(y, m, d, H, M, S)]: a field out of range
    is a [ValueError]. *)
Definition datetime_new (y m d hh mi ss : Z) : pyresult datetime :=
  if valid_date y m d && valid_time hh mi ss
  then Ok (mk_datetime y m d hh mi ss)
  else Raise ValueError.

(** *** The regular expression of a format

    [strptime] turns the format ['%d/%m/%Y %H:%M:%S'] into

    [(3[0-1]|[1-2]\d|0[1-9]|[1-9]| [1-9])/(1[0-2]|0[1-9]|[1-9])/(\d\d\d\d)\s+(2[0-3]|[0-1]\d|\d):([0-5]\d|\d):(6[0-1]|[0-5]\d|\d)]

    and matches it at the start of the text.  A directive is a list of
    alternatives tried from the left, each one or two characters long,
    and every directive but the last is followed by a character that no
    alternative holds.  When the first alternative that matches is not
    followed by that character, a later alternative does not match or
    stops before a digit, so it is not followed by it either: taking
    the first alternative that matches decides the whole match. *)

Definition matcher : Type := string -> option (Z * string).

(** two characters [ab] with [p a] and [q b], read as a number *)
Definition two (p q : ascii -> bool) : matcher := fun s =>
  match s with
  | String a (String b r) =>
      if p a && q b then Some (10 * digit_val a + digit_val b, r) else None
  | _ => None
  end.

(** one character [a] with [p a] *)
Definition one (p : ascii -> bool) : matcher := fun s =>
  match s with
  | String a r => if p a then Some (digit_val a, r) else None
  | EmptyString => None
  end.

(** a blank and then one character [b] with [q b] *)
Definition blank_one (q : ascii -> bool) : matcher := fun s =>
  match s with
  | String a (String b r) =>
      if (code a =? 32) && q b then Some (digit_val b, r) else None
  | _ => None
  end.

Definition orelse (f g : matcher) : matcher := fun s =>
  match f s with
  | Some x => Some x
  | None => g s
  end.

Infix "|||" := orelse (at level 50, left associativity).

Definition chr (c : ascii) : ascii -> bool := fun a => Ascii.eqb a c.

(** [%d]: [3[0-1]|[1-2]\d|0[1-9]|[1-9]| [1-9]] *)
Definition directive_d : matcher :=
  two (chr "3") (between 48 49) ||| two (between 49 50) is_digit
  ||| two (chr "0") (between 49 57) ||| one (between 49 57)
  ||| blank_one (between 49 57).

(** [%m]: [1[0-2]|0[1-9]|[1-9]] *)
Definition directive_m : matcher :=
  two (chr "1") (between 48 50) ||| two (chr "0") (between 49 57)
  ||| one (between 49 57).

(** [%Y]: [\d\d\d\d] *)
Definition directive_Y : matcher := fun s =>
  match two is_digit is_digit s with
  | Some (hi, r) =>
      match two is_digit is_digit r with
      | Some (lo, r') => Some (100 * hi + lo, r')
      | None => None
      end
  | None => None
  end.

(** [%H]: [2[0-3]|[0-1]\d|\d] *)
Definition directive_H : matcher :=
  two (chr "2") (between 48 51) ||| two (between 48 49) is_digit
  ||| one is_digit.

(** [%M]: [[0-5]\d|\d] *)
Definition directive_M : matcher :=
  two (between 48 53) is_digit ||| one is_digit.

(** [%S]: [6[0-1]|[0-5]\d|\d] *)
Definition directive_S : matcher :=
  two (chr "6") (between 48 49) ||| two (between 48 53) is_digit
  ||| one is_digit.

(** a literal character of the format *)
Definition lit (c : ascii) (s : string) : option string :=
  match s with
  | String a r => if Ascii.eqb a c then Some r else None
  | EmptyString => None
  end.

(** [\s+], which a blank of the format becomes: one space at least,
    then every space that follows (no directive starts with one). *)
Definition spaces (s : string) : option string :=
  match s with
  | String a r => if isspace a then Some (lstrip r) else None
  | EmptyString => None
  end.

Definition obind {A B : Type} (o : option A) (k : A -> option B) : option B :=
  match o with
  | Some a => k a
  | None => None
  end.

Notation "' p <-? o ; k" := (obind o (fun p => k))
  (at level 61, p pattern, o at next level, right associativity).
Notation "x <-? o ; k" := (obind o (fun x => k))
  (at level 61, o at next level, right associativity).

(** The part [%d/%m/%Y]: day, month, year and the text left. *)
Definition re_date (s : string) : option (Z * Z * Z * string) :=
  '(d, r) <-? directive_d s ;
  r <-? lit "/" r ;
  '(m, r) <-? directive_m r ;
  r <-? lit "/" r ;
  '(y, r) <-? directive_Y r ;
  Some (d, m, y, r).

(** The part [%H:%M:%S]: hour, minute, second and the text left. *)
Definition re_time (s : string) : option (Z * Z * Z * string) :=
  '(hh, r) <-? directive_H s ;
  r <-? lit ":" r ;
  '(mi, r) <-? directive_M r ;
  r <-? lit ":" r ;
  '(ss, r) <-? directive_S r ;
  Some (hh, mi, ss, r).

(** [datetime.strptime(s, '%d/%m/%Y %H:%M:%S')]: no match, text left
    after the match, or fields that are no date and time, are each a
    [ValueError]. *)
Definition strptime (s : string) : pyresult datetime :=
  match ('(d, m, y, r) <-? re_date s ;
         r <-? spaces r ;
         '(hh, mi, ss, r) <-? re_time r ;
         Some (y, m, d, hh, mi, ss, r)) with
  | Some (y, m, d, hh, mi, ss, EmptyString) => datetime_new y m d hh mi ss
  | _ => Raise ValueError
  end.

(** The text is a date in the form [%d/%m/%Y], all of it. *)
Definition date_text (s : string) (d m y : Z) : Prop :=
  re_date s = Some (d, m, y, EmptyString).

(** The text is a time in the form [%H:%M:%S], all of it. *)
Definition time_matches (s : string) : bool :=
  match re_time s with
  | Some (_, _, _, EmptyString) => true
  | _ => false
  end.

(** What a matcher returns when more text follows. *)
Definition extend (x : string) (o : option (Z * string))
  : option (Z * string) :=
  match o with
  | Some (v, r) => Some (v, r ++ x)
  | None => None
  end.

(** A matcher that reads at most two characters: on a text of two
    characters or more its answer does not depend on what follows, and
    on a single character it leaves nothing. *)
Definition regular (p : matcher) : Prop :=
  p EmptyString = None
  /\ (forall a v r, p (String a EmptyString) = Some (v, r) -> r = EmptyString)
  /\ (forall a b s x,
        p (String a (String b s) ++ x) = extend x (p (String a (String b s)))).

(** Order of timestamps, field by field. *)
Definition dt_compare (a b : datetime) : comparison :=
  match year a ?= year b with
  | Eq => match month a ?= month b with
    | Eq => match day a ?= day b with
      | Eq => match hour a ?= hour b with
        | Eq => match minute a ?= minute b with
          | Eq => second a ?= second b
          | c => c end
        | c => c end
      | c => c end
    | c => c end
  | c => c
  end.

(** [a <= b] *)
Definition dt_leb (a b : datetime) : bool :=
  match dt_compare a b with
  | Gt => false
  | _ => true
  end.

End Strptime.

(** ** The cleanup cells *)

Module Cleaner.
Import Str PyFloat Strptime.

(** The columns of [ocorrencia.csv] the notebook reads, as [read_csv]
    delivers them.  [codigo_ocorrencia] is the integer key of the table;
    [ocorrencia_classificacao] is text, or missing where the field is
    empty; [ocorrencia_cidade] is the text of the popup. *)
Module Raw.
Record occurrence : Type := mk_occurrence {
  codigo_ocorrencia : Z;
  ocorrencia_classificacao : option string;
  ocorrencia_dia : cell;
  ocorrencia_hora : cell;
  ocorrencia_latitude : cell;
  ocorrencia_longitude : cell;
  ocorrencia_cidade : string
}.
End Raw.

(** A row after the cleanup cells: the timestamp column is added and
    both coordinates are floats. *)
Record occurrence : Type := mk_occurrence {
  codigo_ocorrencia : Z;
  ocorrencia_classificacao : option string;
  ocorrencia_data : datetime;
  ocorrencia_latitude : pyfloat;
  ocorrencia_longitude : pyfloat;
  ocorrencia_cidade : string
}.

(** [row['ocorrencia_hora'] if isinstance(row['ocorrencia_hora'], str)
     else '00:00:00'] *)
Definition hora_or_midnight (hora : cell) : string :=
  match hora with
  | CStr h => h
  | _ => "00:00:00"
  end.

(** The [lambda row] of the first cleanup cell.  A date cell that is not
    text cannot be added to [' ']: that is a [TypeError]. *)
Definition timestamp_merge (dia hora : cell) : pyresult datetime :=
  match dia with
  | CStr d => strptime (d ++ " " ++ hora_or_midnight hora)
  | _ => Raise TypeError
  end.

(** [clean_float], under the locale the notebook sets.  A cell that is
    neither a float nor text goes to [locale.atof] too, which calls the
    method [replace] of its argument: an integer or a boolean has none,
    an [AttributeError], which the [except ValueError] does not catch. *)
Definition clean_float (original : cell) : pyresult pyfloat :=
  match original with
  | CFloat f => Ok f
  | CStr s =>
      match atof en_US s with
      | Raise ValueError => Ok NaN
      | r => r
      end
  | CInt _ | CBool _ => Raise AttributeError
  end.

(** [lambda t: t.split('|')[0].strip()]; a cell that is not text has no
    [split]. *)
Definition ocorrencia_tipo_categoria (t : cell) : pyresult string :=
  match t with
  | CStr s => x <- item0 (split "|" s) ;; Ok (strip x)
  | _ => Raise AttributeError
  end.

(** [column.apply(f)] and [df.apply(f, axis=1)]: [f] is called on the
    rows from the first one on, and the first call that raises stops
    the run. *)
Fixpoint apply_rows {A B : Type} (f : A -> pyresult B) (rows : list A)
  : pyresult (list B) :=
  match rows with
  | [] => Ok []
  | x :: rest =>
      y <- f x ;;
      ys <- apply_rows f rest ;;
      Ok (y :: ys)
  end.

Definition merge_row (r : Raw.occurrence) : pyresult datetime :=
  timestamp_merge (Raw.ocorrencia_dia r) (Raw.ocorrencia_hora r).

(** The table with the three new columns put in, row by row. *)
Fixpoint assemble (df : list Raw.occurrence) (datas : list datetime)
  (lats lons : list pyfloat) : list occurrence :=
  match df, datas, lats, lons with
  | r :: df', data :: datas', lat :: lats', lon :: lons' =>
      mk_occurrence (Raw.codigo_ocorrencia r)
        (Raw.ocorrencia_classificacao r) data lat lon
        (Raw.ocorrencia_cidade r)
      :: assemble df' datas' lats' lons'
  | _, _, _, _ => []
  end.

(** The three [apply] cells over the table, one after the other: the
    timestamps of all rows, then the latitudes, then the longitudes.
    On a table without rows the [apply] of the first cell returns a
    table and not a column, and storing it as the one column
    [ocorrencia_data] is a [ValueError]. *)
Definition cleanup (df : list Raw.occurrence) : pyresult (list occurrence) :=
  match df with
  | [] => Raise ValueError
  | _ :: _ =>
      datas <- apply_rows merge_row df ;;
      lats <- apply_rows clean_float (map Raw.ocorrencia_latitude df) ;;
      lons <- apply_rows clean_float (map Raw.ocorrencia_longitude df) ;;
      Ok (assemble df datas lats lons)
  end.

End Cleaner.

(** ** The exploration cells *)

Module Aggregator.
Import Str PyFloat Strptime Cleaner.

(** *** Occurrences per month

    [df.groupby(pd.Grouper(key='ocorrencia_data', freq='M'))
       .codigo_ocorrencia.count()].
    The frequency ['M'] is pandas' month-end frequency: the bins are the
    calendar months from the month of the earliest timestamp to the month
    of the latest one, none left out, and each bin is labelled with the
    last day of its month at midnight.  [count] counts the rows of the
    bin (the key column has no missing value). *)

(** The timestamps a column of pandas timestamps holds, to the second:
    nanoseconds counted from 1970 in 64 bits.  When the first cleanup
    cell returns a timestamp out of these for some row, the column is
    left a column of Python objects. *)
Definition Timestamp_min : datetime := mk_datetime 1677 9 21 0 12 44.
Definition Timestamp_max : datetime := mk_datetime 2262 4 11 23 47 16.

Definition representable (t : datetime) : bool :=
  dt_leb Timestamp_min t && dt_leb t Timestamp_max.

(** Months counted from year 0. *)
Definition month_index (t : datetime) : Z := 12 * year t + (month t - 1).

Definition month_end (k : Z) : datetime :=
  let y := k / 12 in
  let m := k mod 12 + 1 in
  mk_datetime y m (days_in_month y m) 0 0 0.

Fixpoint bins_from (k : Z) (n : nat) : list Z :=
  match n with
  | O => []
  | S n' => k :: bins_from (k + 1) n'
  end.

(** The latest timestamp is on the last day of its month. *)
Definition closes_month (last : Z) (t : datetime) : bool :=
  (month_index t =? last) && (day t =? days_in_month (year t) (month t)).

(** The months that [Grouper(freq='M')] cuts a column of timestamps
    into.  On a column of Python objects the grouper is a [TypeError].
    The edges of the bins are month ends, from the one before the
    earliest day to the one after the latest day (the one that follows,
    when the latest day is a month end itself); an edge that is not
    representable is pandas' [OutOfBoundsDatetime], a [ValueError]. *)
Definition time_bins (ts : list datetime) : pyresult (list Z) :=
  match map month_index ts with
  | [] => Ok []
  | k :: ks =>
      if forallb representable ts then
        let first := fold_left Z.min ks k in
        let last := fold_left Z.max ks k in
        let closing := if existsb (closes_month last) ts
                       then last + 1 else last in
        if representable (month_end (first - 1))
           && representable (month_end closing)
        then Ok (bins_from first (Z.to_nat (last - first + 1)))
        else Raise ValueError
      else Raise TypeError
  end.

Definition in_month (k : Z) (r : occurrence) : bool :=
  month_index (ocorrencia_data r) =? k.

Definition occurencies_in_time (df : list occurrence)
  : pyresult (list (datetime * nat)) :=
  bins <- time_bins (map ocorrencia_data df) ;;
  Ok (map (fun b => (month_end b, List.length (filter (in_month b) df)))
          bins).

(** *** Occurrences per month and class

    [df.set_index('ocorrencia_data')
       .groupby([pd.Grouper(freq='M'), 'ocorrencia_classificacao'])
       .codigo_ocorrencia.count()].
    The months are cut as above.  With two keys the groups are the
    pairs of month and class that occur in some row, sorted by month and
    then by class; each is counted.  A row whose class is missing is
    in no group ([groupby] drops missing keys). *)

Definition group_key : Type := (Z * string)%type.

Definition key_of (r : occurrence) : option group_key :=
  match ocorrencia_classificacao r with
  | Some c => Some (month_index (ocorrencia_data r), c)
  | None => None
  end.

Definition keys_of (df : list occurrence) : list group_key :=
  flat_map (fun r => match key_of r with Some k => [k] | None => [] end) df.

Definition key_compare (a b : group_key) : comparison :=
  match fst a ?= fst b with
  | Eq => String.compare (snd a) (snd b)
  | c => c
  end.

Definition key_eqb (a b : group_key) : bool :=
  (fst a =? fst b) && String.eqb (snd a) (snd b).

(** the rows of a group *)
Definition in_group (k : group_key) (r : occurrence) : bool :=
  match key_of r with
  | Some k' => key_eqb k k'
  | None => false
  end.

(** the keys in order of first appearance, each once *)
Fixpoint observed (ks : list group_key) : list group_key :=
  match ks with
  | [] => []
  | k :: rest =>
      k :: filter (fun k' => negb (key_eqb k k')) (observed rest)
  end.

Fixpoint insert_key (k : group_key) (l : list group_key) : list group_key :=
  match l with
  | [] => [k]
  | k' :: rest =>
      match key_compare k k' with
      | Gt => k' :: insert_key k rest
      | _ => k :: l
      end
  end.

Definition sort_keys (l : list group_key) : list group_key :=
  fold_right insert_key [] l.

Definition occurrence_in_time_by_class (df : list occurrence)
  : pyresult (list (datetime * string * nat)) :=
  _ <- time_bins (map ocorrencia_data df) ;;
  Ok (map (fun k =>
             (month_end (fst k), snd k,
              List.length (filter (in_group k) df)))
          (sort_keys (observed (keys_of df)))).

(** *** The map of accidents *)

(** [column == c] on one row: a missing class equals no text. *)
Definition is_class (c : string) (r : occurrence) : bool :=
  match ocorrencia_classificacao r with
  | Some x => String.eqb x c
  | None => false
  end.

(** [df_ocorrencia[df_ocorrencia.ocorrencia_classificacao == 'ACIDENTE']] *)
Definition accidents (df : list occurrence) : list occurrence :=
  filter (is_class "ACIDENTE") df.

(** [accidents[accidents.ocorrencia_data >= bound]] *)
Definition accidents_since (bound : datetime) (df : list occurrence)
  : list occurrence :=
  filter (fun r => dt_leb bound (ocorrencia_data r)) (accidents df).

(** [accidents_2020], with the notebook's bound [datetime(2020,1,1)] *)
Definition accidents_2020 (df : list occurrence) : list occurrence :=
  accidents_since (mk_datetime 2020 1 1 0 0 0) df.

(** What one [folium.Marker] holds: the location and the popup. *)
Definition marker : Type := (pyfloat * pyfloat * string)%type.

(** [folium.Marker([lat, lon], popup=label)]: folium checks the
    location it is given, and a coordinate that is [nan] is a
    [ValueError]. *)
Definition Marker (lat lon : pyfloat) (popup : string) : pyresult marker :=
  if notna lat && notna lon then Ok (lat, lon, popup)
  else Raise ValueError.

Definition marker_of (r : occurrence) : pyresult marker :=
  Marker (ocorrencia_latitude r) (ocorrencia_longitude r)
         (ocorrencia_cidade r).

(** The loop over
    [accidents_2020[accidents_2020.ocorrencia_latitude.notna()]
       .itertuples()], for any lower bound: the markers put on the map,
    unless a row stops the loop. *)
Definition markers_since (bound : datetime) (df : list occurrence)
  : pyresult (list marker) :=
  apply_rows marker_of
      (filter (fun r => notna (ocorrencia_latitude r))
              (accidents_since bound df)).

Definition markers (df : list occurrence) : pyresult (list marker) :=
  markers_since (mk_datetime 2020 1 1 0 0 0) df.

(** *** [describe] of a numeric column

    [df_aeronave.aeronave_assentos.describe()].  A cell of the column is
    a finite number or missing (a column with an infinite cell is not
    covered).  pandas leaves the missing cells out, divides the squared
    deviations by one less than the count (so the deviation of fewer
    than two values is [nan]) and interpolates linearly between the two
    order statistics around position [p * (count - 1)].  The mean and
    the deviation below are the exact ones: pandas rounds every sum and
    quotient to a binary64, so what it reports is the float next to them
    (and equal to them for a column of one value, where nothing is
    rounded). *)

(** The square root of a rational, kept as its radicand. *)
Inductive root : Type :=
| Sqrt (radicand : Q).

(** [None] is [nan]. *)
Record summary : Type := mk_summary {
  s_count : nat;
  s_mean : option Q;
  s_std : option root;
  s_min : option Q;
  s_q25 : option Q;
  s_q50 : option Q;
  s_q75 : option Q;
  s_max : option Q
}.

Local Open Scope Q_scope.

Definition defined (col : list (option Q)) : list Q :=
  flat_map (fun c => match c with Some q => [q] | None => [] end) col.

Definition total (l : list Q) : Q := fold_right Qplus 0 l.

Definition size (l : list Q) : Q := inject_Z (Z.of_nat (List.length l)).

Definition mean_of (l : list Q) : option Q :=
  match l with
  | [] => None
  | _ :: _ => Some (total l / size l)
  end.

Definition std_of (l : list Q) : option root :=
  match mean_of l with
  | Some mu =>
      if (List.length l <=? 1)%nat then None
      else Some (Sqrt (total (map (fun x => (x - mu) * (x - mu)) l)
                       / (size l - 1)))
  | None => None
  end.

Fixpoint insert_sorted (x : Q) (l : list Q) : list Q :=
  match l with
  | [] => [x]
  | y :: t => if Qle_bool x y then x :: l else y :: insert_sorted x t
  end.

Definition sort_values (l : list Q) : list Q := fold_right insert_sorted [] l.

Definition quantile (p : Q) (l : list Q) : option Q :=
  match sort_values l with
  | [] => None
  | (x0 :: _) as sorted =>
      let pos := p * (size l - 1) in
      let lo := Qfloor pos in
      let a := nth (Z.to_nat lo) sorted x0 in
      let b := nth (S (Z.to_nat lo)) sorted a in
      Some (a + (b - a) * (pos - inject_Z lo))
  end.

Definition least (l : list Q) : option Q :=
  match l with
  | [] => None
  | x :: t => Some (fold_left (fun m y => if Qle_bool y m then y else m) t x)
  end.

Definition greatest (l : list Q) : option Q :=
  match l with
  | [] => None
  | x :: t => Some (fold_left (fun m y => if Qle_bool m y then y else m) t x)
  end.

Definition describe (col : list (option Q)) : summary :=
  let l := defined col in
  mk_summary (List.length l) (mean_of l) (std_of l) (least l)
             (quantile (1 # 4) l) (quantile (1 # 2) l) (quantile (3 # 4) l)
             (greatest l).

End Aggregator.

(** ** Notions the statements below use *)

Module Notions.
Import Str PyFloat Strptime Cleaner Aggregator.

(** The text before the first occurrence of [sep], all of the text when
    there is none. *)
Fixpoint before_first (sep : ascii) (s : string) : string :=
  match s with
  | EmptyString => EmptyString
  | String c r =>
      if Ascii.eqb c sep then EmptyString else String c (before_first sep r)
  end.

(** Every character is a space (true of the empty text). *)
Fixpoint all_space (s : string) : bool :=
  match s with
  | EmptyString => true
  | String c r => isspace c && all_space r
  end.

(** A timestamp whose fields are in range, as every timestamp that
    [strptime] returns is. *)
Definition valid_datetime (t : datetime) : bool :=
  valid_date (year t) (month t) (day t)
  && valid_time (hour t) (minute t) (second t).

(** A timestamp that [strptime] can return, in the years 1678 to 2261:
    the years that a column of pandas timestamps holds from their first
    to their last second (of 1677 and of 2262 it holds a part). *)
Definition groupable (t : datetime) : bool :=
  valid_datetime t && (1678 <=? year t) && (year t <=? 2261).

(** Same calendar month. *)
Definition same_month (t u : datetime) : bool :=
  (year t =? year u) && (month t =? month u).

(** The class of the row is the text [c]. *)
Definition has_class (c : string) (r : occurrence) : bool :=
  match ocorrencia_classificacao r with
  | Some x => String.eqb x c
  | None => false
  end.

(** The class of the row is missing. *)
Definition lacks_class (r : occurrence) : bool :=
  match ocorrencia_classificacao r with
  | Some _ => false
  | None => true
  end.

(** The rows the loop of the map goes through: an accident, not before
    the bound, with a latitude. *)
Definition on_map (bound : datetime) (r : occurrence) : bool :=
  has_class "ACIDENTE" r
  && dt_leb bound (ocorrencia_data r)
  && notna (ocorrencia_latitude r).

(** The rows the map is to show: an accident, not before the bound,
    with both coordinates. *)
Definition qualifies (bound : datetime) (r : occurrence) : bool :=
  has_class "ACIDENTE" r
  && dt_leb bound (ocorrencia_data r)
  && notna (ocorrencia_latitude r)
  && notna (ocorrencia_longitude r).

(** The triple of a row. *)
Definition triple (r : occurrence) : marker :=
  (ocorrencia_latitude r, ocorrencia_longitude r, ocorrencia_cidade r).

(** The cell is text. *)
Definition is_text (c : cell) : bool :=
  match c with
  | CStr _ => true
  | _ => false
  end.

(** A cell that is a number and not a float. *)
Definition whole_number (c : cell) : bool :=
  match c with
  | CInt _ | CBool _ => true
  | _ => false
  end.

(** The date and the time of a raw row can be merged. *)
Definition merges (r : Raw.occurrence) : Prop :=
  exists dt, merge_row r = Ok dt.

(** Later in the order of the result per month and class: a later
    month, or the same month and a class that comes after in the order
    of the code points. *)
Definition entry_lt (a b : datetime * string) : Prop :=
  dt_compare (fst a) (fst b) = Lt
  \/ (fst a = fst b /\ String.compare (snd a) (snd b) = Lt).

(** Rows used as examples. *)
Definition raw_without_longitude : Raw.occurrence :=
  Raw.mk_occurrence 77001 (Some "ACIDENTE") (CStr "15/06/2020")
    (CStr "10:30:00") (CStr "-15.24") (CStr "***") "BRASILIA".

Definition row_without_longitude : occurrence :=
  mk_occurrence 77001 (Some "ACIDENTE") (mk_datetime 2020 6 15 10 30 0)
    (Fin (-1524 # 100)) NaN "BRASILIA".

Definition row_january : occurrence :=
  mk_occurrence 1 (Some "ACIDENTE") (mk_datetime 2020 1 15 10 0 0)
    (Fin (-15 # 1)) (Fin (-51 # 1)) "A".

Definition row_march : occurrence :=
  mk_occurrence 2 (Some "INCIDENTE") (mk_datetime 2020 3 10 0 0 0) NaN NaN
    "B".

(** A row whose class field is empty. *)
Definition row_unclassified : occurrence :=
  mk_occurrence 3 None (mk_datetime 2020 3 20 8 0 0) NaN NaN "C".

(** A row of the year 1500, which [strptime] reads and a column of
    pandas timestamps does not hold. *)
Definition row_1500 : occurrence :=
  mk_occurrence 4 (Some "ACIDENTE") (mk_datetime 1500 4 22 0 0 0) NaN NaN
    "D".

End Notions.

(** ** Positional slices and frequency tables *)

Module Series.

(** [slice(start, stop, step).indices(len)], for a step that is not 0:
    an index given from the end is counted from the front, and every
    index is brought into the range the step can reach. *)
Definition adjust (len lower upper i : Z) : Z :=
  if i <? 0 then Z.max (i + len) lower else Z.min i upper.

Definition indices (start stop : option Z) (step len : Z) : Z * Z :=
  let lower := if step <? 0 then -1 else 0 in
  let upper := if step <? 0 then len - 1 else len in
  (match start with
   | None => if step <? 0 then upper else lower
   | Some i => adjust len lower upper i
   end,
   match stop with
   | None => if step <? 0 then lower else upper
   | Some i => adjust len lower upper i
   end).

(** [range(i, stop, step)]: at most [fuel] numbers. *)
Fixpoint range_from (fuel : nat) (i stop step : Z) : list Z :=
  match fuel with
  | O => []
  | S f =>
      if (if step <? 0 then stop <? i else i <? stop)
      then i :: range_from f (i + step) stop step
      else []
  end.

Definition range (start stop step : Z) : list Z :=
  range_from (Z.to_nat (Z.abs (stop - start))) start stop step.

(** The item at a position, when there is one. *)
Definition item {A : Type} (l : list A) (i : Z) : list A :=
  match nth_error l (Z.to_nat i) with
  | Some x => [x]
  | None => []
  end.

(** [s.iloc[start:stop:step]]; a step of 0 is a [ValueError]. *)
Definition iloc {A : Type} (l : list A) (start stop : option Z) (step : Z)
  : pyresult (list A) :=
  if step =? 0 then Raise ValueError
  else
    let '(a, b) := indices start stop step (Z.of_nat (List.length l)) in
    Ok (flat_map (item l) (range a b step)).

(** [s.head(n)] is [s.iloc[:n]]. *)
Definition head {A : Type} (n : Z) (l : list A) : pyresult (list A) :=
  iloc l None (Some n) 1.

(** The cells of a column that are not missing. *)
Definition dropna {A : Type} (col : list (option A)) : list A :=
  flat_map (fun c => match c with Some x => [x] | None => [] end) col.

(** The values of a list in order of first appearance, each once. *)
Fixpoint distinct {A : Type} (eqb : A -> A -> bool) (l : list A) : list A :=
  match l with
  | [] => []
  | x :: r => x :: filter (fun y => negb (eqb x y)) (distinct eqb r)
  end.

Definition occurrences {A : Type} (eqb : A -> A -> bool) (x : A) (l : list A)
  : nat :=
  List.length (filter (eqb x) l).

(** [s.value_counts()]: the distinct values that are not missing, each
    with the number of its cells, the most frequent first.  pandas does
    not say in which order values of equal count come, so the ordering
    is the parameter [sort]; what the facts below ask of it is that it
    permutes its argument and leaves the counts in descending order. *)
Definition value_counts {A : Type} (eqb : A -> A -> bool)
  (sort : list (A * nat) -> list (A * nat)) (col : list (option A))
  : list (A * nat) :=
  let l := dropna col in
  sort (map (fun x => (x, occurrences eqb x l)) (distinct eqb l)).

(** One such ordering: insertion by descending count that keeps equal
    counts in the order they come in. *)
Fixpoint insert_count {A : Type} (e : A * nat) (l : list (A * nat))
  : list (A * nat) :=
  match l with
  | [] => [e]
  | e' :: t =>
      if (snd e' <=? snd e)%nat then e :: l else e' :: insert_count e t
  end.

Definition sort_stable {A : Type} (l : list (A * nat)) : list (A * nat) :=
  fold_right insert_count [] l.

(** [sep.join(items)] *)
Fixpoint join (sep : string) (items : list string) : string :=
  match items with
  | [] => EmptyString
  | [x] => x
  | x :: rest => x ++ sep ++ join sep rest
  end.

End Series.

(** ** The aircraft and contributing-factor cells *)

Module Tables.
Import Str PyFloat Aggregator Series.

(** A text cell, or the missing value. *)
Definition text : Type := option string.

(** [cell == s]: a missing cell equals no text. *)
Definition text_eq (c : text) (s : string) : bool :=
  match c with
  | Some t => String.eqb t s
  | None => false
  end.

(** [cell != s] *)
Definition text_ne (c : text) (s : string) : bool := negb (text_eq c s).

(** [column.isin(values)] on one cell *)
Definition isin (c : text) (values : list string) : bool :=
  existsb (text_eq c) values.

(** [x < y] and [x > y] on a float cell: false when the cell is missing. *)
Definition Qlt_bool (x y : Q) : bool := negb (Qle_bool y x).

Definition greater (c : option Q) (bound : Q) : bool :=
  match c with
  | Some x => Qlt_bool bound x
  | None => false
  end.

Definition less (c : option Q) (bound : Q) : bool :=
  match c with
  | Some x => Qlt_bool x bound
  | None => false
  end.

(** The columns of [aeronave.csv] that the notebook selects on or
    summarises.  The maker and the model are cells as [read_csv] leaves
    them: text, [nan] for an empty field, or numbers when every model
    of the file is written as one. *)
Record aircraft : Type := mk_aircraft {
  aeronave_operador_categoria : text;
  aeronave_fabricante : cell;
  aeronave_modelo : cell;
  aeronave_assentos : option Q;
  aeronave_ano_fabricacao : option Q;
  aeronave_voo_origem : text;
  aeronave_nivel_dano : text;
  aeronave_fatalidades_total : option Q
}.

Record factor : Type := mk_factor {
  fator_area : text;
  fator_condicionante : text;
  fator_nome : text
}.

(** [df_aeronave[(ano > 0.0) & (ano < 2100.0)]['aeronave_ano_fabricacao']] *)
Definition valid_year_of_fabrication (df : list aircraft)
  : list (option Q) :=
  map aeronave_ano_fabricacao
      (filter (fun r => greater (aeronave_ano_fabricacao r) 0
                        && less (aeronave_ano_fabricacao r) (2100 # 1))
              df).

(** [df_aeronave[df_aeronave.aeronave_nivel_dano != 'NENHUM']
      .aeronave_fatalidades_total] *)
Definition fatalities_with_damage (df : list aircraft) : list (option Q) :=
  map aeronave_fatalidades_total
      (filter (fun r => text_ne (aeronave_nivel_dano r) "NENHUM") df).

(** [df_aeronave[~df_aeronave.aeronave_nivel_dano.isin(['NENHUM', 'LEVE'])]
      .aeronave_fatalidades_total] *)
Definition substantial_damage_or_more (df : list aircraft)
  : list (option Q) :=
  map aeronave_fatalidades_total
      (filter (fun r => negb (isin (aeronave_nivel_dano r) ["NENHUM"; "LEVE"]))
              df).

(** ['DESTRUÍDA']: the accented letter is code point 205. *)
Definition DESTRUIDA : string := "DESTRU" ++ String (ascii_of_nat 205) "DA".

(** [df_aeronave[df_aeronave.aeronave_nivel_dano == 'DESTRUÍDA']
      .aeronave_fatalidades_total] *)
Definition fatalities_aircraft_destroyed (df : list aircraft)
  : list (option Q) :=
  map aeronave_fatalidades_total
      (filter (fun r => text_eq (aeronave_nivel_dano r) DESTRUIDA) df).

(** [lambda row: ' '.join(row)] on the maker and the model of a row: a
    cell that is not text (a missing one, a number) cannot be joined, a
    [TypeError]. *)
Definition make_model (r : aircraft) : pyresult string :=
  match aeronave_fabricante r, aeronave_modelo r with
  | CStr maker, CStr model => Ok (join " " [maker; model])
  | _, _ => Raise TypeError
  end.

(** [df_aeronave[['aeronave_fabricante','aeronave_modelo']]
      .apply(lambda row: ' '.join(row), axis=1)] *)
Fixpoint make_models (df : list aircraft) : pyresult (list string) :=
  match df with
  | [] => Ok []
  | r :: rest =>
      x <- make_model r ;;
      xs <- make_models rest ;;
      Ok (x :: xs)
  end.

(** [most_common_aircraft_make_models] *)
Definition most_common_aircraft_make_models
  (sort : list (string * nat) -> list (string * nat)) (df : list aircraft)
  : pyresult (list (string * nat)) :=
  labels <- make_models df ;;
  head 10 (value_counts String.eqb sort (map Some labels)).

(** [most_common_origin_airdromes] and what its chart is given,
    [most_common_origin_airdromes.iloc[:1:-1]] *)
Definition most_common_origin_airdromes
  (sort : list (string * nat) -> list (string * nat)) (df : list aircraft)
  : pyresult (list (string * nat)) :=
  head 12 (value_counts String.eqb sort (map aeronave_voo_origem df)).

Definition origin_airdromes_chart
  (sort : list (string * nat) -> list (string * nat)) (df : list aircraft)
  : pyresult (list (string * nat)) :=
  top <- most_common_origin_airdromes sort df ;;
  iloc top None (Some 1) (-1).

(** [aircraft_operator_type] and what its chart is given,
    [aircraft_operator_type.iloc[:0:-1]] *)
Definition aircraft_operator_type
  (sort : list (string * nat) -> list (string * nat)) (df : list aircraft)
  : list (string * nat) :=
  value_counts String.eqb sort (map aeronave_operador_categoria df).

Definition aircraft_operator_type_chart
  (sort : list (string * nat) -> list (string * nat)) (df : list aircraft)
  : pyresult (list (string * nat)) :=
  iloc (aircraft_operator_type sort df) None (Some 0) (-1).

(** ['OPERAÇÃO DA AERONAVE']: the accented letters are code points 199
    and 195. *)
Definition OPERACAO_DA_AERONAVE : string :=
  "OPERA" ++ String (ascii_of_nat 199) (String (ascii_of_nat 195)
                                               "O DA AERONAVE").

Definition operational_factor_conditioning (df : list factor) : list factor :=
  filter (fun r => text_eq (fator_area r) "FATOR OPERACIONAL") df.

Definition aircraft_operation (df : list factor) : list factor :=
  filter (fun r => text_eq (fator_condicionante r) OPERACAO_DA_AERONAVE)
         (operational_factor_conditioning df).

Definition human_factor_conditioning (df : list factor) : list factor :=
  filter (fun r => text_eq (fator_area r) "FATOR HUMANO") df.

Definition individual_factors (df : list factor) : list factor :=
  filter (fun r => text_eq (fator_condicionante r) "INDIVIDUAL")
         (human_factor_conditioning df).

Definition organisational_factors (df : list factor) : list factor :=
  filter (fun r => text_eq (fator_condicionante r) "ORGANIZACIONAL")
         (human_factor_conditioning df).

End Tables.

(** ** Further notions the statements use *)

Module Written.
Import Str Strptime.

(** A number below 100 written with two digits, as [%d], [%m], [%H],
    [%M] and [%S] write it, and a year written with four, as [%Y]. *)
Definition digit_char (n : Z) : ascii := ascii_of_nat (Z.to_nat (48 + n)).

Definition two_digits (n : Z) : string :=
  String (digit_char (n / 10)) (String (digit_char (n mod 10)) EmptyString).

Definition four_digits (n : Z) : string :=
  two_digits (n / 100) ++ two_digits (n mod 100).

Definition format_date (y m d : Z) : string :=
  two_digits d ++ "/" ++ two_digits m ++ "/" ++ four_digits y.

Definition format_time (hh mi ss : Z) : string :=
  two_digits hh ++ ":" ++ two_digits mi ++ ":" ++ two_digits ss.

(** No character of the text is [c]. *)
Fixpoint lacks (c : ascii) (s : string) : bool :=
  match s with
  | EmptyString => true
  | String a r => negb (Ascii.eqb a c) && lacks c r
  end.

(** The text neither starts nor ends with a space. *)
Definition first_char (s : string) : option ascii :=
  match s with
  | EmptyString => None
  | String a _ => Some a
  end.

Fixpoint last_char (s : string) : option ascii :=
  match s with
  | EmptyString => None
  | String a EmptyString => Some a
  | String _ r => last_char r
  end.

Definition visible (o : option ascii) : bool :=
  match o with
  | Some a => negb (isspace a)
  | None => true
  end.

(** The order of the groups: by month, then by class. *)
Definition key_lt (a b : Aggregator.group_key) : Prop :=
  Aggregator.key_compare a b = Lt.

Definition sum_counts (l : list nat) : nat := fold_right Nat.add 0%nat l.

(** An entry of a frequency table may come before another one. *)
Definition count_ge {A : Type} (a b : A * nat) : Prop := (snd b <= snd a)%nat.

(** The value at the rank [pos] of a list, between the two values
    around that rank: what [quantile] computes once the list is sorted. *)
Definition interpolate (s : list Q) (d pos : Q) : Q :=
  let lo := Qfloor pos in
  let a := nth (Z.to_nat lo) s d in
  let b := nth (S (Z.to_nat lo)) s a in
  (a + (b - a) * (pos - inject_Z lo))%Q.

End Written.

Import Str PyFloat Strptime Cleaner Aggregator Notions.

(** * Facts *)

(** ** Strings *)

Lemma split_nonempty (sep : ascii) (s : string) : split sep s <> [].
Proof.
  destruct s as [|c r]; simpl; [discriminate|].
  destruct (Ascii.eqb c sep); [discriminate|].
  destruct (split sep r); discriminate.
Qed.

Lemma item0_split (sep : ascii) (s : string) :
  item0 (split sep s) = Ok (before_first sep s).
Proof.
  induction s as [|c r IH]; simpl; [reflexivity|].
  destruct (Ascii.eqb c sep); [reflexivity|].
  destruct (split sep r) as [|h t] eqn:E.
  - exfalso. exact (split_nonempty sep r E).
  - simpl in IH. injection IH as ->. reflexivity.
Qed.

Lemma all_space_lstrip (s : string) : all_space (lstrip s) = all_space s.
Proof.
  induction s as [|c r IH]; simpl; [reflexivity|].
  destruct (isspace c) eqn:E; simpl.
  - exact IH.
  - rewrite E. reflexivity.
Qed.

Lemma is_empty_rstrip (s : string) : is_empty (rstrip s) = all_space s.
Proof.
  induction s as [|c r IH]; simpl; [reflexivity|].
  rewrite <- IH.
  destruct (isspace c); simpl; [|reflexivity].
  destruct (is_empty (rstrip r)); reflexivity.
Qed.

Lemma is_empty_strip (s : string) : is_empty (strip s) = all_space s.
Proof.
  unfold strip. rewrite is_empty_rstrip. apply all_space_lstrip.
Qed.

Lemma is_empty_true (s : string) : is_empty s = true <-> s = EmptyString.
Proof.
  destruct s; simpl; split; intro H; try reflexivity; discriminate.
Qed.

(** A text without the separator is its own first field. *)
Lemma before_first_absent (sep : ascii) (s : string) :
  (forall c, In c (list_ascii_of_string s) -> Ascii.eqb c sep = false) ->
  before_first sep s = s.
Proof.
  induction s as [|c r IH]; simpl; intro H; [reflexivity|].
  rewrite (H c (or_introl eq_refl)). f_equal. apply IH.
  intros c' Hc'. apply H. right. exact Hc'.
Qed.

(** ** The float parse *)

Lemma float_of_string_raises (s : string) (e : exn) :
  float_of_string s = Raise e -> e = ValueError.
Proof.
  unfold float_of_string.
  destruct (sign (rstrip_f (lstrip_f s))) as [neg body].
  destruct (_ || _); [discriminate|].
  destruct (String.eqb _ _); [discriminate|].
  destruct (number body) as [[[ip fp] r]|]; [|congruence].
  destruct (exponent r) as [x [|c r']]; congruence.
Qed.

(** A text too large for a float is read as an infinity, one too small
    as zero. *)
Example float_of_string_limits :
  float_of_string "1e400" = Ok (Inf false)
  /\ float_of_string "-1e400" = Ok (Inf true)
  /\ float_of_string "1e-400" = Ok (Fin 0)
  /\ clean_float (CStr "1e400") = Ok (Inf false).
Proof. repeat split; vm_compute; reflexivity. Qed.

Lemma clean_float_text (s : string) :
  clean_float (CStr s)
  = Ok (match atof en_US s with Ok f => f | Raise _ => NaN end).
Proof.
  unfold clean_float, atof.
  destruct (float_of_string (delocalize en_US s)) as [f|e] eqn:E.
  - reflexivity.
  - rewrite (float_of_string_raises _ _ E). reflexivity.
Qed.

(** C9, as stated, fails: an integer cell is a numeric value, and
    [clean_float] does not return it: it raises [AttributeError]. *)
Lemma clean_float_integer_raises :
  clean_float (CInt 5) = Raise AttributeError
  /\ (forall f, clean_float (CInt 5) <> Ok f).
Proof. split; [reflexivity|discriminate]. Qed.

(** C9, amended: for every cell that is already a float, [clean_float]
    returns that float unchanged, so cleaning a cell a second time,
    whatever the cell was, gives what the first cleaning gave; a cell
    that is an integer or a boolean is not returned: it makes
    [clean_float] raise [AttributeError]. *)
Theorem clean_float_numeric_unchanged (x : pyfloat) :
  clean_float (CFloat x) = Ok x
  /\ (forall c : cell,
        (y <- clean_float c ;; clean_float (CFloat y)) = clean_float c)
  /\ (forall n, clean_float (CInt n) = Raise AttributeError)
  /\ (forall b, clean_float (CBool b) = Raise AttributeError).
Proof.
  split; [reflexivity|]. split; [|split; reflexivity].
  intros [f|s|n|b]; try reflexivity.
  rewrite clean_float_text. reflexivity.
Qed.

(** C5, as stated, fails: the notebook's locale groups digits with the
    comma, so ["-15,24"] is read as -1524 and not as -15.24. *)
Lemma clean_float_comma_is_grouping :
  exists q, clean_float (CStr "-15,24") = Ok (Fin q)
            /\ Qeq q (-1524 # 1) /\ ~ Qeq q (-1524 # 100).
Proof.
  eexists. split; [vm_compute; reflexivity|].
  split; [reflexivity|]. intro H. vm_compute in H. discriminate.
Qed.

(** C5, amended: under the locale the notebook sets the comma is the
    grouping separator, so ["-15,24"] is parsed as -1524 while
    ["-15.24"] is parsed as -15.24; a locale whose decimal point is the
    comma reads ["-15,24"] as -15.24; and for every text the result is
    the parsed float, or the missing marker when the parse raises: no
    text makes [clean_float] raise. *)
Theorem clean_float_text_total :
  (exists q, clean_float (CStr "-15,24") = Ok (Fin q) /\ Qeq q (-1524 # 1))
  /\ (exists q, clean_float (CStr "-15.24") = Ok (Fin q)
                /\ Qeq q (-1524 # 100))
  /\ (exists q, atof pt_BR "-15,24" = Ok (Fin q) /\ Qeq q (-1524 # 100))
  /\ (forall s, clean_float (CStr s)
                = Ok (match atof en_US s with Ok f => f | Raise _ => NaN end))
  /\ clean_float (CStr "***") = Ok NaN.
Proof.
  repeat split.
  - eexists. split; [vm_compute; reflexivity|reflexivity].
  - eexists. split; [vm_compute; reflexivity|reflexivity].
  - eexists. split; [vm_compute; reflexivity|reflexivity].
  - exact clean_float_text.
Qed.

(** ** The category of an occurrence type *)

Example categoria_example :
  ocorrencia_tipo_categoria (CStr "ACIDENTE | outros | texto")
  = Ok "ACIDENTE".
Proof. reflexivity. Qed.

(** C6, as stated, fails: a text that starts with a pipe, and the empty
    text, have an empty category. *)
Lemma categoria_can_be_empty :
  ocorrencia_tipo_categoria (CStr "| OUTROS") = Ok ""
  /\ ocorrencia_tipo_categoria (CStr "") = Ok ""
  /\ ocorrencia_tipo_categoria (CStr "   ") = Ok "".
Proof. repeat split. Qed.

(** C6, amended: for every text the category is the text before the
    first pipe (all of it when there is no pipe) without the spaces at
    its ends, and it is empty exactly when that text holds nothing but
    spaces. *)
Theorem categoria_is_trimmed_prefix (s : string) :
  ocorrencia_tipo_categoria (CStr s) = Ok (strip (before_first "|" s))
  /\ is_empty (strip (before_first "|" s)) = all_space (before_first "|" s).
Proof.
  split.
  - unfold ocorrencia_tipo_categoria. rewrite item0_split. reflexivity.
  - apply is_empty_strip.
Qed.

(** ** Matching a date and a time *)

Lemma regular_two (p q : ascii -> bool) : regular (two p q).
Proof.
  repeat split; simpl; try discriminate.
  intros a b s x. destruct (p a && q b); reflexivity.
Qed.

Lemma regular_one (p : ascii -> bool) : regular (one p).
Proof.
  repeat split; simpl.
  - intros a v r. destruct (p a); congruence.
  - intros a b s x. destruct (p a); reflexivity.
Qed.

Lemma regular_blank_one (q : ascii -> bool) : regular (blank_one q).
Proof.
  repeat split; simpl; try discriminate.
  intros a b s x. destruct ((code a =? 32) && q b); reflexivity.
Qed.

Lemma regular_orelse (f g : matcher) :
  regular f -> regular g -> regular (f ||| g).
Proof.
  intros (F0 & F1 & F2) (G0 & G1 & G2). unfold orelse. repeat split.
  - rewrite F0. exact G0.
  - intros a v r. destruct (f (String a EmptyString)) as [[v' r']|] eqn:E.
    + intro H. injection H as <- <-. exact (F1 _ _ _ E).
    + apply G1.
  - intros a b s x. rewrite F2.
    destruct (f (String a (String b s))) as [[v r]|]; simpl; [reflexivity|].
    apply G2.
Qed.

Create HintDb regular.

#[local] Hint Resolve regular_two regular_one regular_blank_one
  regular_orelse : regular.

Lemma regular_directive_d : regular directive_d.
Proof. unfold directive_d. auto 10 with regular. Qed.

Lemma regular_directive_m : regular directive_m.
Proof. unfold directive_m. auto 10 with regular. Qed.

(** A regular matcher that leaves some text gives the same answer when
    more text is appended. *)
Lemma regular_app (p : matcher) (s : string) (v : Z) (r x : string) :
  regular p -> p s = Some (v, r) -> r <> EmptyString ->
  p (s ++ x) = Some (v, r ++ x).
Proof.
  intros (P0 & P1 & P2) E Hr.
  destruct s as [|a [|b s]].
  - congruence.
  - elim Hr. exact (P1 _ _ _ E).
  - rewrite P2, E. reflexivity.
Qed.

Lemma lit_app (c : ascii) (s r x : string) :
  lit c s = Some r -> lit c (s ++ x) = Some (r ++ x) /\ s <> EmptyString.
Proof.
  destruct s as [|a s]; simpl; [discriminate|].
  destruct (Ascii.eqb a c); [|discriminate].
  intro H. injection H as ->. split; [reflexivity|discriminate].
Qed.

Lemma two_app (p q : ascii -> bool) (s : string) (v : Z) (r x : string) :
  two p q s = Some (v, r) -> two p q (s ++ x) = Some (v, r ++ x).
Proof.
  destruct s as [|a [|b s]]; simpl; try discriminate.
  destruct (p a && q b); [|discriminate].
  intro H. injection H as <- <-. reflexivity.
Qed.

Lemma directive_Y_app (s : string) (v : Z) (r x : string) :
  directive_Y s = Some (v, r) -> directive_Y (s ++ x) = Some (v, r ++ x).
Proof.
  unfold directive_Y.
  destruct (two is_digit is_digit s) as [[hi r1]|] eqn:E1; [|discriminate].
  destruct (two is_digit is_digit r1) as [[lo r2]|] eqn:E2; [|discriminate].
  intro H. injection H as <- <-.
  rewrite (two_app _ _ _ _ _ x E1), (two_app _ _ _ _ _ x E2). reflexivity.
Qed.

(** A text that is a date is still read as that date when more text
    follows it, and the text that follows is what is left. *)
Lemma re_date_app (s : string) (d m y : Z) (x : string) :
  date_text s d m y -> re_date (s ++ x) = Some (d, m, y, x).
Proof.
  unfold date_text, re_date, obind.
  destruct (directive_d s) as [[d' r1]|] eqn:Ed; [|discriminate].
  destruct (lit "/" r1) as [r2|] eqn:L1; [|discriminate].
  destruct (directive_m r2) as [[m' r3]|] eqn:Em; [|discriminate].
  destruct (lit "/" r3) as [r4|] eqn:L2; [|discriminate].
  destruct (directive_Y r4) as [[y' r5]|] eqn:Ey; [|discriminate].
  intro H. injection H as <- <- <- ->.
  destruct (lit_app _ _ _ x L1) as [L1' N1].
  destruct (lit_app _ _ _ x L2) as [L2' N2].
  rewrite (regular_app _ _ _ _ x regular_directive_d Ed N1), L1'.
  rewrite (regular_app _ _ _ _ x regular_directive_m Em N2), L2'.
  rewrite (directive_Y_app _ _ _ x Ey). reflexivity.
Qed.

(** The merge of a text that is a date with any time text: the time is
    read after the spaces it starts with. *)
Lemma strptime_date_then_time (dia t : string) (d m y : Z) :
  date_text dia d m y ->
  strptime (dia ++ " " ++ t)
  = match re_time (lstrip t) with
    | Some (hh, mi, ss, EmptyString) => datetime_new y m d hh mi ss
    | _ => Raise ValueError
    end.
Proof.
  intro Hd. unfold strptime.
  rewrite (re_date_app _ _ _ _ (" " ++ t) Hd).
  change (obind (Some (d, m, y, " " ++ t)) ?k) with (k (d, m, y, " " ++ t)).
  cbv beta iota.
  change (spaces (" " ++ t)) with (Some (lstrip t)).
  unfold obind at 1.
  destruct (re_time (lstrip t)) as [[[[hh mi] ss] r]|]; reflexivity.
Qed.

(** C8: for every row whose date text is a day/month/year date, the
    merge with a time that is not text gives the same result as the
    merge with the text ["00:00:00"], and that result is midnight of the
    date. *)
Theorem timestamp_merge_absent_time
  (dia : string) (absent : pyfloat) (d m y : Z) :
  date_text dia d m y -> valid_date y m d = true ->
  timestamp_merge (CStr dia) (CFloat absent)
  = timestamp_merge (CStr dia) (CStr "00:00:00")
  /\ timestamp_merge (CStr dia) (CFloat absent)
     = Ok (mk_datetime y m d 0 0 0).
Proof.
  intros Hd Hv. split; [reflexivity|].
  unfold timestamp_merge, hora_or_midnight.
  rewrite (strptime_date_then_time _ "00:00:00" _ _ _ Hd).
  change (re_time (lstrip "00:00:00")) with (Some (0, 0, 0, EmptyString)).
  unfold datetime_new. rewrite Hv. reflexivity.
Qed.

Lemma timestamp_merge_absent_time_witness :
  timestamp_merge (CStr "07/03/2020") (CFloat NaN)
  = timestamp_merge (CStr "07/03/2020") (CStr "00:00:00")
  /\ timestamp_merge (CStr "07/03/2020") (CFloat NaN)
     = Ok (mk_datetime 2020 3 7 0 0 0).
Proof.
  apply (timestamp_merge_absent_time "07/03/2020" NaN 7 3 2020);
    reflexivity.
Defined.

(** The merge does not depend on which non-text value stands for the
    absent time, whatever the date cell is. *)
Lemma timestamp_merge_absent_any (dia hora : cell) :
  is_text hora = false ->
  timestamp_merge dia hora = timestamp_merge dia (CStr "00:00:00").
Proof. destruct dia, hora; try reflexivity; discriminate. Qed.

(** C10, as stated, fails: a time text that starts with a space is not
    in the form hour:minute:second, yet the merge reads it, because the
    blank of the format takes every space before the hour. *)
Lemma timestamp_merge_leading_space :
  time_matches " 10:00:00" = false
  /\ timestamp_merge (CStr "01/01/2020") (CStr " 10:00:00")
     = Ok (mk_datetime 2020 1 1 10 0 0).
Proof. split; reflexivity. Qed.

(** C10, amended: for every row whose date text is a day/month/year date
    and whose time is a text that, once the spaces it starts with are
    dropped, is not in the form hour:minute:second, the merge raises
    [ValueError]; midnight is not put in its place. *)
Theorem timestamp_merge_bad_time (dia t : string) (d m y : Z) :
  date_text dia d m y -> time_matches (lstrip t) = false ->
  timestamp_merge (CStr dia) (CStr t) = Raise ValueError.
Proof.
  intros Hd Ht. unfold timestamp_merge, hora_or_midnight.
  rewrite (strptime_date_then_time _ t _ _ _ Hd).
  unfold time_matches in Ht.
  destruct (re_time (lstrip t)) as [[[[hh mi] ss] [|c r]]|];
    [discriminate|reflexivity|reflexivity].
Qed.

Lemma timestamp_merge_bad_time_witness :
  timestamp_merge (CStr "01/01/2020") (CStr "25:00") = Raise ValueError.
Proof.
  apply (timestamp_merge_bad_time "01/01/2020" "25:00" 1 1 2020);
    reflexivity.
Defined.

Example timestamp_merge_noon :
  timestamp_merge (CStr "01/01/2020") (CStr "noon") = Raise ValueError.
Proof. reflexivity. Qed.

(** X4: when the merge of a date text that is a date and of a time text
    returns a timestamp, the time text, after the spaces it starts
    with, is a time; the timestamp has the day, month and year of the
    date text and the hour, minute and second of the time text, and its
    fields are in range. *)
Lemma timestamp_merge_text (dia t : string) (d m y : Z) (dt : datetime) :
  date_text dia d m y ->
  timestamp_merge (CStr dia) (CStr t) = Ok dt ->
  exists hh mi ss,
    re_time (lstrip t) = Some (hh, mi, ss, EmptyString)
    /\ dt = mk_datetime y m d hh mi ss
    /\ valid_datetime dt = true.
Proof.
  intros Hd. unfold timestamp_merge, hora_or_midnight.
  rewrite (strptime_date_then_time _ t _ _ _ Hd).
  destruct (re_time (lstrip t)) as [[[[hh mi] ss] [|c r]]|];
    try discriminate.
  unfold datetime_new.
  destruct (valid_date y m d && valid_time hh mi ss) eqn:V; [|discriminate].
  intro H. injection H as <-. exists hh, mi, ss. repeat split. exact V.
Qed.

(** Every timestamp [strptime] returns has its fields in range. *)
Lemma strptime_valid (s : string) (dt : datetime) :
  strptime s = Ok dt -> valid_datetime dt = true.
Proof.
  unfold strptime.
  destruct (obind (re_date s) _) as [[[[[[[y m] d] hh] mi] ss] [|c r]]|];
    try discriminate.
  unfold datetime_new.
  destruct (valid_date y m d && valid_time hh mi ss) eqn:V; [|discriminate].
  intro H. injection H as <-. exact V.
Qed.

(** ** The map of accidents *)

Lemma filter_twice {A : Type} (p q : A -> bool) (l : list A) :
  filter p (filter q l) = filter (fun x => q x && p x) l.
Proof.
  induction l as [|x l IH]; simpl; [reflexivity|].
  destruct (q x); simpl; [destruct (p x)|]; rewrite IH; reflexivity.
Qed.

(** What [apply_rows] returns: the results of all rows, or the error of
    the first row that raises. *)
Lemma apply_rows_ok {A B : Type} (f : A -> pyresult B) (l : list A)
  (vs : list B) :
  apply_rows f l = Ok vs <-> Forall2 (fun x v => f x = Ok v) l vs.
Proof.
  revert vs. induction l as [|x l IH]; intro vs; cbn [apply_rows].
  - split.
    + intro H. injection H as <-. constructor.
    + intro H. inversion H. reflexivity.
  - destruct (f x) as [v|e] eqn:Ex; cbn [bind].
    + destruct (apply_rows f l) as [ws|e] eqn:El; cbn [bind].
      * split.
        -- intro H. injection H as <-. constructor; [exact Ex|].
           apply IH. reflexivity.
        -- intro H. inversion H as [|? v' ? ws' Hv Hws]; subst.
           apply IH in Hws. congruence.
      * split; [discriminate|].
        intro H. inversion H as [|? v' ? ws' Hv Hws]; subst.
        apply IH in Hws. discriminate.
    + split; [discriminate|].
      intro H. inversion H as [|? v' ? ws' Hv Hws]; subst. congruence.
Qed.

Lemma apply_rows_map {A B : Type} (f : A -> pyresult B) (g : A -> B)
  (l : list A) :
  (forall x, In x l -> f x = Ok (g x)) -> apply_rows f l = Ok (map g l).
Proof.
  induction l as [|x l IH]; intro H; cbn [apply_rows map]; [reflexivity|].
  rewrite (H x (or_introl eq_refl)). cbn [bind].
  rewrite IH by (intros y Hy; apply H; right; exact Hy). reflexivity.
Qed.

Lemma apply_rows_raise {A B : Type} (f : A -> pyresult B) (l : list A)
  (e : exn) :
  apply_rows f l = Raise e <->
  exists before x rest,
    l = (before ++ x :: rest)%list
    /\ Forall (fun y => exists v, f y = Ok v) before
    /\ f x = Raise e.
Proof.
  induction l as [|x l IH]; cbn [apply_rows].
  - split; [discriminate|].
    intros (before & y & rest & E & _). destruct before; discriminate.
  - destruct (f x) as [v|e'] eqn:Ex; cbn [bind].
    + destruct (apply_rows f l) as [ws|e''] eqn:El; cbn [bind].
      * split; [discriminate|].
        intros (before & y & rest & E & Hb & Hy).
        destruct before as [|b before]; injection E as <- ->;
          [congruence|].
        inversion Hb; subst.
        enough (H : Ok ws = Raise e) by discriminate.
        apply IH. exists before, y, rest. auto.
      * split.
        -- intro H. injection H as ->.
           destruct (proj1 IH eq_refl) as (before & y & rest & -> & Hb & Hy).
           exists (x :: before), y, rest. repeat split; auto.
           constructor; [exists v; exact Ex|exact Hb].
        -- intros (before & y & rest & E & Hb & Hy).
           destruct before as [|b before]; injection E as <- ->;
             [congruence|].
           inversion Hb; subst. f_equal.
           assert (H : Raise (A:=list B) e'' = Raise e)
             by (apply IH; exists before, y, rest; auto).
           injection H as ->. reflexivity.
    + split.
      * intro H. injection H as ->. exists [], x, l. auto.
      * intros (before & y & rest & E & Hb & Hy).
        destruct before as [|b before]; injection E as <- ->.
        -- congruence.
        -- inversion Hb as [|? ? [v Hv] ?]; subst. congruence.
Qed.

Lemma marker_of_ok (r : occurrence) :
  notna (ocorrencia_latitude r) = true ->
  notna (ocorrencia_longitude r) = true ->
  marker_of r = Ok (triple r).
Proof.
  intros Hla Hlo. unfold marker_of, Marker. rewrite Hla, Hlo. reflexivity.
Qed.

Lemma marker_of_raise (r : occurrence) (e : exn) :
  notna (ocorrencia_latitude r) = true ->
  marker_of r = Raise e <->
  e = ValueError /\ notna (ocorrencia_longitude r) = false.
Proof.
  intro Hla. unfold marker_of, Marker. rewrite Hla. cbn [andb].
  destruct (notna (ocorrencia_longitude r)).
  - split; [discriminate|]. intros [_ H]. discriminate.
  - split.
    + intro H. injection H as <-. auto.
    + intros [-> _]. reflexivity.
Qed.

(** The rows the loop goes through. *)
Lemma loop_rows (bound : datetime) (df : list occurrence) :
  filter (fun r => notna (ocorrencia_latitude r)) (accidents_since bound df)
  = filter (on_map bound) df.
Proof.
  unfold accidents_since, accidents. rewrite !filter_twice.
  apply filter_ext. intro r. unfold on_map, is_class, has_class.
  apply andb_assoc.
Qed.

(** C1: the specification asks that a row is put on the map only when
    both its coordinates are defined.  The loop tests the latitude
    alone: a row that comes out of the cleanup with a latitude and no
    longitude is handed to [folium.Marker], which takes no [nan], and
    the loop stops with a [ValueError] in place of leaving the row out;
    the rows after it get no marker either. *)
Theorem markers_stop_without_longitude :
  cleanup [raw_without_longitude] = Ok [row_without_longitude]
  /\ on_map (mk_datetime 2020 1 1 0 0 0) row_without_longitude = true
  /\ notna (ocorrencia_longitude row_without_longitude) = false
  /\ markers [row_without_longitude] = Raise ValueError
  /\ markers [row_without_longitude; row_january] = Raise ValueError
  /\ markers [row_january]
     = Ok [(Fin (-15 # 1), Fin (-51 # 1), "A")].
Proof. repeat split. Qed.

(** X25: on a table where every row has both coordinates or none, the
    map gets one triple of latitude, longitude and city for each row,
    in table order, whose class is ['ACIDENTE'], whose timestamp is not
    before the bound and whose coordinates are both defined; no triple
    has an undefined coordinate, and the loop does not raise. *)
Theorem markers_since_triples (bound : datetime) (df : list occurrence) :
  Forall (fun r => notna (ocorrencia_latitude r)
                   = notna (ocorrencia_longitude r)) df ->
  markers_since bound df = Ok (map triple (filter (qualifies bound) df))
  /\ Forall (fun mk => notna (fst (fst mk)) = true
                       /\ notna (snd (fst mk)) = true)
            (map triple (filter (qualifies bound) df)).
Proof.
  intro Hboth. rewrite Forall_forall in Hboth.
  assert (Hq : forall r, In r (filter (qualifies bound) df) ->
                         notna (ocorrencia_latitude r) = true
                         /\ notna (ocorrencia_longitude r) = true).
  { intros r Hr. apply filter_In in Hr. destruct Hr as [_ Hr].
    unfold qualifies in Hr.
    apply andb_true_iff in Hr. destruct Hr as [Hr Hlo].
    apply andb_true_iff in Hr. destruct Hr as [_ Hla]. auto. }
  split.
  - unfold markers_since. rewrite loop_rows.
    rewrite (filter_ext_in (on_map bound) (qualifies bound)).
    + apply apply_rows_map. intros r Hr.
      destruct (Hq r Hr). apply marker_of_ok; assumption.
    + intros r Hr. unfold qualifies. fold (on_map bound r).
      destruct (on_map bound r) eqn:E; [|reflexivity].
      unfold on_map in E. apply andb_true_iff in E.
      rewrite <- (Hboth r Hr). rewrite (proj2 E). reflexivity.
  - apply Forall_forall. intros mk Hmk. apply in_map_iff in Hmk.
    destruct Hmk as (r & <- & Hr). exact (Hq r Hr).
Qed.

Lemma markers_since_triples_witness :
  markers_since (mk_datetime 2020 1 1 0 0 0) [row_january; row_march]
  = Ok (map triple
          (filter (qualifies (mk_datetime 2020 1 1 0 0 0))
                  [row_january; row_march]))
  /\ Forall (fun mk => notna (fst (fst mk)) = true
                       /\ notna (snd (fst mk)) = true)
            (map triple
               (filter (qualifies (mk_datetime 2020 1 1 0 0 0))
                       [row_january; row_march])).
Proof.
  apply (markers_since_triples (mk_datetime 2020 1 1 0 0 0)
           [row_january; row_march]).
  repeat constructor.
Defined.

(** ** [describe] of a column with one value *)

Lemma quantile_single (p v : Q) :
  exists q, quantile p [v] = Some q /\ Qeq q v.
Proof.
  unfold quantile. simpl sort_values. cbv beta iota.
  eexists. split; [reflexivity|].
  set (pos := (p * (size [v] - 1))%Q).
  assert (E : forall n, nth n [v] v = v) by (intros [|[|n]]; reflexivity).
  rewrite !E. ring.
Qed.

(** C4, as stated, fails: the deviation of a single value is pandas'
    [nan], not 0 (the squared deviations are divided by the count less
    one). *)
Lemma describe_single_std_undefined :
  defined [Some (3 # 1); None] = [3 # 1]
  /\ s_std (describe [Some (3 # 1); None]) = None.
Proof. split; reflexivity. Qed.

(** C4, amended: for every column with exactly one defined value, the
    count is 1, the mean, the minimum, the maximum and the 25th, 50th
    and 75th percentiles are that value, and the standard deviation is
    undefined. *)
Theorem describe_single_value (col : list (option Q)) (v : Q) :
  defined col = [v] ->
  s_count (describe col) = 1%nat
  /\ (exists mu, s_mean (describe col) = Some mu /\ Qeq mu v)
  /\ s_std (describe col) = None
  /\ s_min (describe col) = Some v
  /\ (exists q, s_q25 (describe col) = Some q /\ Qeq q v)
  /\ (exists q, s_q50 (describe col) = Some q /\ Qeq q v)
  /\ (exists q, s_q75 (describe col) = Some q /\ Qeq q v)
  /\ s_max (describe col) = Some v.
Proof.
  intro H. unfold describe. rewrite H. simpl.
  repeat split; try apply quantile_single.
  eexists. split; [reflexivity|].
  unfold total, size. simpl. field.
Qed.

Lemma describe_single_value_witness :
  s_count (describe [None; Some (3 # 1)]) = 1%nat
  /\ (exists mu, s_mean (describe [None; Some (3 # 1)]) = Some mu
                 /\ Qeq mu (3 # 1))
  /\ s_std (describe [None; Some (3 # 1)]) = None
  /\ s_min (describe [None; Some (3 # 1)]) = Some (3 # 1)
  /\ (exists q, s_q25 (describe [None; Some (3 # 1)]) = Some q
                /\ Qeq q (3 # 1))
  /\ (exists q, s_q50 (describe [None; Some (3 # 1)]) = Some q
                /\ Qeq q (3 # 1))
  /\ (exists q, s_q75 (describe [None; Some (3 # 1)]) = Some q
                /\ Qeq q (3 # 1))
  /\ s_max (describe [None; Some (3 # 1)]) = Some (3 # 1).
Proof.
  apply (describe_single_value [None; Some (3 # 1)] (3 # 1)). reflexivity.
Defined.

(** With two values or more the deviation is defined. *)
Lemma std_of_defined (x y : Q) (l : list Q) :
  exists r, std_of (x :: y :: l) = Some (Sqrt r).
Proof. unfold std_of. simpl. eexists. reflexivity. Qed.

(** ** Occurrences per month *)

Lemma bins_from_seq (k : Z) (n : nat) :
  bins_from k n = map (fun i => k + Z.of_nat i) (seq 0 n).
Proof.
  revert k. induction n as [|n IH]; intro k; [reflexivity|].
  simpl bins_from. rewrite IH. simpl seq. simpl map.
  rewrite Z.add_0_r. f_equal.
  rewrite <- seq_shift, map_map. apply map_ext. intro i. lia.
Qed.

Lemma fold_min_in (ks : list Z) (k : Z) :
  In (fold_left Z.min ks k) (k :: ks).
Proof.
  revert k. induction ks as [|a ks IH]; intro k; simpl; [auto|].
  destruct (IH (Z.min k a)) as [E|Hin]; [|auto].
  rewrite <- E. destruct (Z.min_spec k a) as [[_ ->]|[_ ->]]; auto.
Qed.

Lemma fold_min_le (ks : list Z) :
  forall k x, In x (k :: ks) -> fold_left Z.min ks k <= x.
Proof.
  induction ks as [|a ks IH]; intros k x; simpl.
  - intros [->|[]]. lia.
  - intros [->|[->|Hin]].
    + specialize (IH (Z.min x a) _ (or_introl eq_refl)). lia.
    + specialize (IH (Z.min k x) _ (or_introl eq_refl)). lia.
    + apply IH. right. exact Hin.
Qed.

Lemma fold_max_in (ks : list Z) (k : Z) :
  In (fold_left Z.max ks k) (k :: ks).
Proof.
  revert k. induction ks as [|a ks IH]; intro k; simpl; [auto|].
  destruct (IH (Z.max k a)) as [E|Hin]; [|auto].
  rewrite <- E. destruct (Z.max_spec k a) as [[_ ->]|[_ ->]]; auto.
Qed.

Lemma fold_max_ge (ks : list Z) :
  forall k x, In x (k :: ks) -> x <= fold_left Z.max ks k.
Proof.
  induction ks as [|a ks IH]; intros k x; simpl.
  - intros [->|[]]. lia.
  - intros [->|[->|Hin]].
    + specialize (IH (Z.max x a) _ (or_introl eq_refl)). lia.
    + specialize (IH (Z.max k x) _ (or_introl eq_refl)). lia.
    + apply IH. right. exact Hin.
Qed.

Lemma valid_datetime_month (t : datetime) :
  valid_datetime t = true -> 1 <= month t <= 12.
Proof.
  unfold valid_datetime, valid_date. intro H.
  repeat (apply andb_true_iff in H; destruct H as [H ?]).
  lia.
Qed.

(** A later timestamp is in the same month or in a later one. *)
Lemma month_index_monotone (a b : datetime) :
  valid_datetime a = true -> valid_datetime b = true ->
  dt_leb a b = true -> month_index a <= month_index b.
Proof.
  intros Va Vb. apply valid_datetime_month in Va, Vb.
  unfold dt_leb, dt_compare, month_index.
  destruct (Z.compare_spec (year a) (year b)); [|lia|discriminate].
  destruct (Z.compare_spec (month a) (month b)); [lia|lia|discriminate].
Qed.

Lemma month_index_end (k : Z) : month_index (month_end k) = k.
Proof.
  unfold month_index, month_end. cbn [year month].
  pose proof (Z.div_mod k 12). lia.
Qed.

Lemma in_month_same (k : Z) (r : occurrence) :
  valid_datetime (ocorrencia_data r) = true ->
  in_month k r = same_month (ocorrencia_data r) (month_end k).
Proof.
  intro V. apply valid_datetime_month in V.
  unfold in_month, same_month, month_index, month_end. cbn [year month].
  pose proof (Z.div_mod k 12 ltac:(lia)) as D.
  pose proof (Z.mod_pos_bound k 12 ltac:(lia)) as B.
  destruct (12 * year (ocorrencia_data r) + (month (ocorrencia_data r) - 1)
            =? k) eqn:E.
  - apply Z.eqb_eq in E. symmetry. apply andb_true_iff.
    split; apply Z.eqb_eq; lia.
  - apply Z.eqb_neq in E. symmetry. apply andb_false_iff.
    destruct (Z.eq_dec (year (ocorrencia_data r)) (k / 12)) as [Ey|Ey].
    + right. apply Z.eqb_neq. lia.
    + left. apply Z.eqb_neq. exact Ey.
Qed.

(** The months of the years 1678 to 2261, and the month ends next to
    them, are representable. *)
Lemma representable_month_end (k : Z) :
  12 * 1677 + 9 <= k <= 12 * 2262 + 2 ->
  representable (month_end k) = true.
Proof.
  intro H. unfold representable, dt_leb, dt_compare, month_end,
    Timestamp_min, Timestamp_max.
  cbn [year month day hour minute second].
  pose proof (Z.div_mod k 12 ltac:(lia)) as D.
  pose proof (Z.mod_pos_bound k 12 ltac:(lia)) as B.
  apply andb_true_iff. split.
  - destruct (Z.compare_spec 1677 (k / 12)); [|reflexivity|lia].
    destruct (Z.compare_spec 9 (k mod 12 + 1)); [lia|reflexivity|lia].
  - destruct (Z.compare_spec (k / 12) 2262); [|reflexivity|lia].
    destruct (Z.compare_spec (k mod 12 + 1) 4); [lia|reflexivity|lia].
Qed.

Lemma groupable_valid (t : datetime) :
  groupable t = true -> valid_datetime t = true.
Proof.
  unfold groupable. intro H.
  apply andb_true_iff in H. destruct H as [H _].
  apply andb_true_iff in H. exact (proj1 H).
Qed.

Lemma groupable_month_index (t : datetime) :
  groupable t = true -> 12 * 1678 <= month_index t <= 12 * 2261 + 11.
Proof.
  intro H. pose proof (valid_datetime_month _ (groupable_valid _ H)) as M.
  unfold groupable in H.
  apply andb_true_iff in H. destruct H as [H H2].
  apply andb_true_iff in H. destruct H as [_ H1].
  unfold month_index. lia.
Qed.

Lemma groupable_representable (t : datetime) :
  groupable t = true -> representable t = true.
Proof.
  intro H. unfold groupable in H.
  apply andb_true_iff in H. destruct H as [H H2].
  apply andb_true_iff in H. destruct H as [_ H1].
  unfold representable, dt_leb, dt_compare, Timestamp_min, Timestamp_max.
  cbn [year month day hour minute second].
  apply andb_true_iff. split.
  - destruct (Z.compare_spec 1677 (year t)); [lia|reflexivity|lia].
  - destruct (Z.compare_spec (year t) 2262); [lia|reflexivity|lia].
Qed.

(** On a column of groupable timestamps the grouper cuts the months
    from the first to the last. *)
Lemma time_bins_groupable (ts : list datetime) (k : Z) (ks : list Z) :
  Forall (fun t => groupable t = true) ts ->
  map month_index ts = k :: ks ->
  time_bins ts
  = Ok (bins_from (fold_left Z.min ks k)
          (Z.to_nat (fold_left Z.max ks k - fold_left Z.min ks k + 1))).
Proof.
  intros G E. unfold time_bins. rewrite E.
  rewrite Forall_forall in G.
  assert (R : forallb representable ts = true).
  { apply forallb_forall. intros t Ht.
    apply groupable_representable, G, Ht. }
  rewrite R. cbv zeta.
  assert (Hix : forall x, In x (k :: ks) ->
                          12 * 1678 <= x <= 12 * 2261 + 11).
  { intros x Hx. rewrite <- E in Hx. apply in_map_iff in Hx.
    destruct Hx as (t & <- & Ht). apply groupable_month_index, G, Ht. }
  pose proof (Hix _ (fold_min_in ks k)) as Hfirst.
  pose proof (Hix _ (fold_max_in ks k)) as Hlast.
  rewrite (representable_month_end (fold_left Z.min ks k - 1)) by lia.
  destruct (existsb _ ts);
    rewrite representable_month_end by lia; reflexivity.
Qed.

Lemma occurencies_in_time_groupable
  (df : list occurrence) (k : Z) (ks : list Z) :
  Forall (fun r => groupable (ocorrencia_data r) = true) df ->
  map (fun r => month_index (ocorrencia_data r)) df = k :: ks ->
  occurencies_in_time df
  = Ok (map (fun b => (month_end b, List.length (filter (in_month b) df)))
           (bins_from (fold_left Z.min ks k)
              (Z.to_nat (fold_left Z.max ks k - fold_left Z.min ks k + 1)))).
Proof.
  intros G E. unfold occurencies_in_time.
  rewrite (time_bins_groupable _ k ks).
  - reflexivity.
  - apply Forall_forall. intros t Ht. apply in_map_iff in Ht.
    destruct Ht as (r & <- & Hr). rewrite Forall_forall in G. exact (G r Hr).
  - rewrite map_map. exact E.
Qed.

Lemma month_end_month (k : Z) : 1 <= month (month_end k) <= 12.
Proof.
  unfold month_end. cbn [month].
  pose proof (Z.mod_pos_bound k 12 ltac:(lia)). lia.
Qed.

(** C2, as stated, fails: each month is labelled with its last day, not
    with its first (a gap month is there, with the count 0); and a
    table with a timestamp of the year 1500, which the cleanup reads,
    gets no result at all. *)
Lemma occurencies_in_time_labels_month_end :
  occurencies_in_time [row_january; row_march]
  = Ok [(mk_datetime 2020 1 31 0 0 0, 1%nat);
        (mk_datetime 2020 2 29 0 0 0, 0%nat);
        (mk_datetime 2020 3 31 0 0 0, 1%nat)]
  /\ timestamp_merge (CStr "22/04/1500") (CFloat NaN)
     = Ok (ocorrencia_data row_1500)
  /\ occurencies_in_time [row_january; row_1500] = Raise TypeError.
Proof. repeat split. Qed.

(** C2, amended: for every non-empty table of timestamps of the years
    1678 to 2261, with [tmin] the earliest and [tmax] the latest of
    them, the count per month returns a result that has, in order, one
    entry for each calendar month from the month of [tmin] to the month
    of [tmax], none left out; each entry is labelled with the last day
    of its month (a month from 1 to 12) at midnight and holds the
    number of rows of that month, which is 0 for a month without
    rows. *)
Theorem occurencies_in_time_months
  (df : list occurrence) (tmin tmax : datetime) :
  Forall (fun r => groupable (ocorrencia_data r) = true) df ->
  In tmin (map ocorrencia_data df) ->
  In tmax (map ocorrencia_data df) ->
  (forall r, In r df ->
             dt_leb tmin (ocorrencia_data r) = true
             /\ dt_leb (ocorrencia_data r) tmax = true) ->
  exists out,
    occurencies_in_time df = Ok out
    /\ map (fun e => month_index (fst e)) out
       = map (fun i => month_index tmin + Z.of_nat i)
             (seq 0 (Z.to_nat (month_index tmax - month_index tmin + 1)))
    /\ (forall t n, In (t, n) out ->
          1 <= month t <= 12
          /\ day t = days_in_month (year t) (month t)
          /\ hour t = 0 /\ minute t = 0 /\ second t = 0
          /\ n = List.length
                   (filter (fun r => same_month (ocorrencia_data r) t) df)).
Proof.
  intros G Hmin Hmax Hall.
  assert (V : forall r, In r df -> valid_datetime (ocorrencia_data r) = true).
  { intros r Hr. rewrite Forall_forall in G. apply groupable_valid, G, Hr. }
  assert (Vd : forall t, In t (map ocorrencia_data df) ->
                         valid_datetime t = true).
  { intros t Ht. apply in_map_iff in Ht. destruct Ht as (r & <- & Hr).
    exact (V r Hr). }
  assert (Hix : forall k, In k (map (fun r => month_index (ocorrencia_data r)) df)
                -> month_index tmin <= k <= month_index tmax).
  { intros k Hk. apply in_map_iff in Hk. destruct Hk as (r & <- & Hr).
    destruct (Hall r Hr) as [H1 H2].
    assert (Vr : valid_datetime (ocorrencia_data r) = true)
      by (apply Vd, in_map; exact Hr).
    split; apply month_index_monotone; auto. }
  assert (Imin : In (month_index tmin)
                    (map (fun r => month_index (ocorrencia_data r)) df)).
  { rewrite <- (map_map ocorrencia_data month_index). apply in_map. exact Hmin. }
  assert (Imax : In (month_index tmax)
                    (map (fun r => month_index (ocorrencia_data r)) df)).
  { rewrite <- (map_map ocorrencia_data month_index). apply in_map. exact Hmax. }
  destruct (map (fun r => month_index (ocorrencia_data r)) df) as [|k ks] eqn:E;
    [contradiction|].
  assert (Efirst : fold_left Z.min ks k = month_index tmin).
  { pose proof (fold_min_le ks k _ Imin).
    pose proof (Hix _ (fold_min_in ks k)). lia. }
  assert (Elast : fold_left Z.max ks k = month_index tmax).
  { pose proof (fold_max_ge ks k _ Imax).
    pose proof (Hix _ (fold_max_in ks k)). lia. }
  eexists. split; [exact (occurencies_in_time_groupable df k ks G E)|].
  rewrite Efirst, Elast. split.
  - rewrite map_map. simpl fst.
    rewrite (map_ext _ (fun b => b) month_index_end), map_id.
    apply bins_from_seq.
  - intros t n Hin. apply in_map_iff in Hin.
    destruct Hin as (b & Hb & _). injection Hb as <- <-.
    split; [apply month_end_month|].
    repeat split.
    f_equal. apply filter_ext_in. intros r Hr.
    apply in_month_same. exact (V r Hr).
Qed.

Lemma occurencies_in_time_months_witness :
  exists out,
    occurencies_in_time [row_january; row_march] = Ok out
    /\ map (fun e => month_index (fst e)) out
       = map (fun i => month_index (ocorrencia_data row_january) + Z.of_nat i)
             (seq 0 (Z.to_nat (month_index (ocorrencia_data row_march)
                               - month_index (ocorrencia_data row_january)
                               + 1)))
    /\ (forall t n, In (t, n) out ->
          1 <= month t <= 12
          /\ day t = days_in_month (year t) (month t)
          /\ hour t = 0 /\ minute t = 0 /\ second t = 0
          /\ n = List.length
                   (filter (fun r => same_month (ocorrencia_data r) t)
                           [row_january; row_march])).
Proof.
  apply (occurencies_in_time_months [row_january; row_march]
           (ocorrencia_data row_january) (ocorrencia_data row_march)).
  - repeat constructor.
  - left. reflexivity.
  - right. left. reflexivity.
  - intros r [<-|[<-|[]]]; split; reflexivity.
Defined.

(** The counts add up to the number of rows: no row is lost. *)
Lemma bins_total (df : list occurrence) (k : Z) (n : nat) :
  (forall r, In r df ->
             k <= month_index (ocorrencia_data r) < k + Z.of_nat n) ->
  fold_right Nat.add 0%nat
    (map (fun b => List.length (filter (in_month b) df)) (bins_from k n))
  = List.length df.
Proof.
  revert k df. induction n as [|n IH]; intros k df H.
  - destruct df as [|r df]; [reflexivity|].
    specialize (H r (or_introl eq_refl)). lia.
  - simpl bins_from. simpl map. simpl fold_right.
    rewrite (map_ext_in _
               (fun b => List.length
                           (filter (in_month b)
                                   (filter (fun r => negb (in_month k r)) df)))).
    + rewrite IH.
      * clear. induction df as [|r df IHd]; [reflexivity|].
        simpl. destruct (in_month k r); simpl; lia.
      * intros r Hr. apply filter_In in Hr. destruct Hr as [Hr Hk].
        specialize (H r Hr). unfold in_month in Hk.
        apply negb_true_iff, Z.eqb_neq in Hk. lia.
    + intros b Hb. rewrite filter_twice. f_equal. apply filter_ext.
      intro r. unfold in_month.
      destruct (month_index (ocorrencia_data r) =? b) eqn:Eb;
        [|rewrite andb_false_r; reflexivity].
      rewrite andb_true_r. apply Z.eqb_eq in Eb.
      rewrite bins_from_seq in Hb. apply in_map_iff in Hb.
      destruct Hb as (i & <- & _).
      symmetry. apply negb_true_iff, Z.eqb_neq. lia.
Qed.

(** X9: for every table of timestamps of the years 1678 to 2261 the
    count per month returns a result, and its counts add up to the
    number of rows: no row is lost and none is counted twice. *)
Theorem occurencies_in_time_total (df : list occurrence) :
  Forall (fun r => groupable (ocorrencia_data r) = true) df ->
  exists out,
    occurencies_in_time df = Ok out
    /\ fold_right Nat.add 0%nat (map snd out) = List.length df.
Proof.
  intro G.
  destruct (map (fun r => month_index (ocorrencia_data r)) df)
    as [|k ks] eqn:E.
  - apply map_eq_nil in E. subst df. exists []. split; reflexivity.
  - eexists. split; [exact (occurencies_in_time_groupable df k ks G E)|].
    rewrite map_map. simpl snd. apply bins_total.
    intros r Hr.
    assert (Hin : In (month_index (ocorrencia_data r)) (k :: ks)).
    { rewrite <- E.
      exact (in_map (fun r => month_index (ocorrencia_data r)) df r Hr). }
    pose proof (fold_min_le ks k _ Hin).
    pose proof (fold_max_ge ks k _ Hin). lia.
Qed.

Lemma occurencies_in_time_total_witness :
  exists out,
    occurencies_in_time [row_january; row_march; row_unclassified] = Ok out
    /\ fold_right Nat.add 0%nat (map snd out)
       = List.length [row_january; row_march; row_unclassified].
Proof.
  apply (occurencies_in_time_total
           [row_january; row_march; row_unclassified]).
  repeat constructor.
Defined.

(** A table with a timestamp that a column of pandas timestamps does
    not hold cannot be grouped by month. *)
Example occurencies_in_time_1500 :
  valid_datetime (ocorrencia_data row_1500) = true
  /\ occurencies_in_time [row_january; row_1500] = Raise TypeError
  /\ occurrence_in_time_by_class [row_january; row_1500] = Raise TypeError.
Proof. repeat split. Qed.

(** ** Occurrences per month and class *)

Lemma key_eqb_eq (a b : group_key) : key_eqb a b = true <-> a = b.
Proof.
  destruct a as [ka ca], b as [kb cb]. unfold key_eqb. simpl.
  rewrite andb_true_iff, Z.eqb_eq, String.eqb_eq.
  split; [intros [-> ->]; reflexivity|intro H; injection H; auto].
Qed.

Lemma key_eqb_refl (a : group_key) : key_eqb a a = true.
Proof. apply key_eqb_eq. reflexivity. Qed.

Lemma in_observed (k : group_key) (ks : list group_key) :
  In k (observed ks) <-> In k ks.
Proof.
  induction ks as [|k0 ks IH]; simpl; [tauto|].
  rewrite filter_In, IH.
  destruct (key_eqb k0 k) eqn:E.
  - apply key_eqb_eq in E. subst k0. tauto.
  - simpl. tauto.
Qed.

Lemma nodup_observed (ks : list group_key) : NoDup (observed ks).
Proof.
  induction ks as [|k0 ks IH]; simpl; constructor.
  - rewrite filter_In, key_eqb_refl. simpl. intros [_ H]. discriminate.
  - apply NoDup_filter. exact IH.
Qed.

Lemma in_insert_key (k x : group_key) (l : list group_key) :
  In k (insert_key x l) <-> x = k \/ In k l.
Proof.
  induction l as [|y l IH]; simpl; [tauto|].
  destruct (key_compare x y); simpl; tauto.
Qed.

Lemma in_sort_keys (k : group_key) (l : list group_key) :
  In k (sort_keys l) <-> In k l.
Proof.
  induction l as [|x l IH]; simpl; [tauto|].
  rewrite in_insert_key, IH. tauto.
Qed.

Lemma nodup_insert_key (x : group_key) (l : list group_key) :
  ~ In x l -> NoDup l -> NoDup (insert_key x l).
Proof.
  induction l as [|y l IH]; simpl; intros Hx Hl.
  - constructor; [tauto|constructor].
  - destruct (key_compare x y); try (constructor; [simpl; tauto|exact Hl]).
    inversion Hl as [|? ? Hy Hl']; subst. constructor.
    + rewrite in_insert_key. intros [->|H]; tauto.
    + apply IH; tauto.
Qed.

Lemma nodup_sort_keys (l : list group_key) : NoDup l -> NoDup (sort_keys l).
Proof.
  induction l as [|x l IH]; simpl; intro H; [constructor|].
  inversion H; subst. apply nodup_insert_key; [|auto].
  rewrite in_sort_keys. assumption.
Qed.

Lemma nodup_map_injective {A B : Type} (f : A -> B) (l : list A) :
  (forall x y, f x = f y -> x = y) -> NoDup l -> NoDup (map f l).
Proof.
  intros Hf. induction 1 as [|x l Hx Hl IH]; simpl; constructor; [|exact IH].
  intro Hin. apply in_map_iff in Hin. destruct Hin as (y & E & Hy).
  apply Hf in E. subst y. exact (Hx Hy).
Qed.

Lemma in_keys_of (k : group_key) (df : list occurrence) :
  In k (keys_of df) <-> exists r, In r df /\ key_of r = Some k.
Proof.
  unfold keys_of. rewrite in_flat_map. split.
  - intros (r & Hr & Hk). exists r. split; [exact Hr|].
    destruct (key_of r) as [k'|]; [|contradiction].
    destruct Hk as [->|[]]. reflexivity.
  - intros (r & Hr & E). exists r. split; [exact Hr|].
    rewrite E. left. reflexivity.
Qed.

Lemma key_of_some (r : occurrence) (k : Z) (c : string) :
  key_of r = Some (k, c) <->
  ocorrencia_classificacao r = Some c
  /\ month_index (ocorrencia_data r) = k.
Proof.
  unfold key_of. destruct (ocorrencia_classificacao r) as [x|].
  - split.
    + intro H. injection H as <- <-. auto.
    + intros [H <-]. injection H as <-. reflexivity.
  - split; [discriminate|]. intros [H _]. discriminate.
Qed.

(** The rows of a group are the rows of its month that have its
    class. *)
Lemma in_group_month_class (k : Z) (c : string) (r : occurrence) :
  in_group (k, c) r = in_month k r && has_class c r.
Proof.
  unfold in_group, key_of, has_class, in_month, key_eqb.
  destruct (ocorrencia_classificacao r) as [x|]; cbn [fst snd].
  - rewrite (Z.eqb_sym k), (String.eqb_sym c). reflexivity.
  - rewrite andb_false_r. reflexivity.
Qed.

Lemma groups_of (df : list occurrence) (k : group_key) :
  In k (sort_keys (observed (keys_of df))) <-> In k (keys_of df).
Proof. rewrite in_sort_keys. apply in_observed. Qed.

Lemma groups_nodup (df : list occurrence) :
  NoDup (sort_keys (observed (keys_of df))).
Proof. apply nodup_sort_keys, nodup_observed. Qed.

(** On a table of groupable timestamps the grouper by month and class
    returns the observed groups, counted. *)
Lemma by_class_groupable (df : list occurrence) :
  Forall (fun r => groupable (ocorrencia_data r) = true) df ->
  occurrence_in_time_by_class df
  = Ok (map (fun k =>
               (month_end (fst k), snd k,
                List.length (filter (in_group k) df)))
            (sort_keys (observed (keys_of df)))).
Proof.
  intro G. unfold occurrence_in_time_by_class.
  destruct (map month_index (map ocorrencia_data df)) as [|k ks] eqn:E.
  - apply map_eq_nil, map_eq_nil in E. subst df. reflexivity.
  - rewrite (time_bins_groupable _ k ks); [reflexivity| |exact E].
    apply Forall_forall. intros t Ht. apply in_map_iff in Ht.
    destruct Ht as (r & <- & Hr). rewrite Forall_forall in G. exact (G r Hr).
Qed.

(** C7, as stated, fails: February has an entry (with the count 0) in
    the result per month, and no entry for any class in the result per
    month and class; nor is there an entry for incidents in January.
    A row whose class is missing is counted in its month and under no
    class, and a table with a timestamp of the year 1500 gets no
    result. *)
Lemma by_class_omits_empty_combinations :
  occurencies_in_time [row_january; row_march]
  = Ok [(mk_datetime 2020 1 31 0 0 0, 1%nat);
        (mk_datetime 2020 2 29 0 0 0, 0%nat);
        (mk_datetime 2020 3 31 0 0 0, 1%nat)]
  /\ occurrence_in_time_by_class [row_january; row_march]
     = Ok [(mk_datetime 2020 1 31 0 0 0, "ACIDENTE", 1%nat);
           (mk_datetime 2020 3 31 0 0 0, "INCIDENTE", 1%nat)]
  /\ occurrence_in_time_by_class [row_january; row_march; row_unclassified]
     = Ok [(mk_datetime 2020 1 31 0 0 0, "ACIDENTE", 1%nat);
           (mk_datetime 2020 3 31 0 0 0, "INCIDENTE", 1%nat)]
  /\ occurrence_in_time_by_class [row_january; row_1500] = Raise TypeError.
Proof. repeat split. Qed.

(** C7, amended: for every table of timestamps of the years 1678 to
    2261, the count per month and class returns a result; its classes
    are the texts found in the class column; it has exactly one entry
    for each pair of month and class that some row has, labelled with
    the last day of the month and holding the number of rows of that
    month and class, which is 1 at least; a pair that no row has (so
    every class of a month without rows) has no entry, and a row whose
    class is missing is counted in no entry. *)
Theorem occurrence_in_time_by_class_observed (df : list occurrence) :
  Forall (fun r => groupable (ocorrencia_data r) = true) df ->
  exists out,
    occurrence_in_time_by_class df = Ok out
    /\ (forall c, (exists t n, In (t, c, n) out)
                  <-> In (Some c) (map ocorrencia_classificacao df))
    /\ (forall t c n,
          In (t, c, n) out
          <-> exists r,
                In r df
                /\ ocorrencia_classificacao r = Some c
                /\ t = month_end (month_index (ocorrencia_data r))
                /\ n = List.length
                         (filter (fun r' =>
                                    same_month (ocorrencia_data r') t
                                    && has_class c r')
                                 df))
    /\ (forall t c n, In (t, c, n) out -> (1 <= n)%nat)
    /\ NoDup (map fst out).
Proof.
  intro G. eexists. split; [exact (by_class_groupable df G)|].
  assert (V : forall r, In r df -> valid_datetime (ocorrencia_data r) = true).
  { intros r Hr. rewrite Forall_forall in G. apply groupable_valid, G, Hr. }
  assert (Hcount : forall k c,
            filter (in_group (k, c)) df
            = filter (fun r' => same_month (ocorrencia_data r') (month_end k)
                                && has_class c r') df).
  { intros k c. apply filter_ext_in. intros r Hr.
    rewrite in_group_month_class, (in_month_same k r (V r Hr)).
    reflexivity. }
  assert (Hchar : forall t c n,
        In (t, c, n)
           (map (fun k =>
                   (month_end (fst k), snd k,
                    List.length (filter (in_group k) df)))
                (sort_keys (observed (keys_of df))))
        <-> exists r,
              In r df
              /\ ocorrencia_classificacao r = Some c
              /\ t = month_end (month_index (ocorrencia_data r))
              /\ n = List.length
                       (filter (fun r' =>
                                  same_month (ocorrencia_data r') t
                                  && has_class c r')
                               df)).
  { intros t c n. rewrite in_map_iff. split.
    - intros ([k c'] & E & Hk). cbn [fst snd] in E. injection E as <- <- <-.
      apply groups_of, in_keys_of in Hk. destruct Hk as (r & Hr & Ek).
      apply key_of_some in Ek. destruct Ek as [Ec <-].
      exists r. repeat split; auto. rewrite Hcount. reflexivity.
    - intros (r & Hr & Ec & -> & ->).
      exists (month_index (ocorrencia_data r), c). cbn [fst snd]. split.
      + rewrite Hcount. reflexivity.
      + apply groups_of, in_keys_of. exists r. split; [exact Hr|].
        apply key_of_some. auto. }
  split; [|split; [exact Hchar|split]].
  - intro c. split.
    + intros (t & n & H). apply Hchar in H. destruct H as (r & Hr & <- & _).
      apply in_map. exact Hr.
    + intro H. apply in_map_iff in H. destruct H as (r & Ec & Hr).
      eexists. eexists. apply Hchar. exists r. auto.
  - intros t c n H. apply Hchar in H. destruct H as (r & Hr & Ec & -> & ->).
    assert (Hin : In r (filter
                          (fun r' =>
                             same_month (ocorrencia_data r')
                               (month_end (month_index (ocorrencia_data r)))
                             && has_class c r') df)).
    { apply filter_In. split; [exact Hr|].
      rewrite <- (in_month_same _ r (V r Hr)).
      unfold in_month, has_class. rewrite Z.eqb_refl, Ec, String.eqb_refl.
      reflexivity. }
    destruct (filter _ df); [contradiction|simpl; lia].
  - rewrite map_map. simpl fst.
    apply nodup_map_injective.
    + intros [k1 c1] [k2 c2] E.
      assert (E1 := f_equal (fun p => month_index (fst p)) E).
      assert (E2 := f_equal snd E).
      cbv beta in E1. cbn [fst snd] in E1, E2.
      rewrite !month_index_end in E1. subst. reflexivity.
    + apply groups_nodup.
Qed.

Lemma occurrence_in_time_by_class_observed_witness :
  exists out,
    occurrence_in_time_by_class [row_january; row_march; row_unclassified]
    = Ok out
    /\ (forall c, (exists t n, In (t, c, n) out)
                  <-> In (Some c)
                         (map ocorrencia_classificacao
                              [row_january; row_march; row_unclassified]))
    /\ (forall t c n,
          In (t, c, n) out
          <-> exists r,
                In r [row_january; row_march; row_unclassified]
                /\ ocorrencia_classificacao r = Some c
                /\ t = month_end (month_index (ocorrencia_data r))
                /\ n = List.length
                         (filter (fun r' =>
                                    same_month (ocorrencia_data r') t
                                    && has_class c r')
                                 [row_january; row_march; row_unclassified]))
    /\ (forall t c n, In (t, c, n) out -> (1 <= n)%nat)
    /\ NoDup (map fst out).
Proof.
  apply (occurrence_in_time_by_class_observed
           [row_january; row_march; row_unclassified]).
  repeat constructor.
Defined.

(** The row without a class is in the count of its month and in no
    count of a class. *)
Example unclassified_row_dropped :
  occurencies_in_time [row_january; row_march; row_unclassified]
  = Ok [(mk_datetime 2020 1 31 0 0 0, 1%nat);
        (mk_datetime 2020 2 29 0 0 0, 0%nat);
        (mk_datetime 2020 3 31 0 0 0, 2%nat)]
  /\ occurrence_in_time_by_class [row_january; row_march; row_unclassified]
     = Ok [(mk_datetime 2020 1 31 0 0 0, "ACIDENTE", 1%nat);
           (mk_datetime 2020 3 31 0 0 0, "INCIDENTE", 1%nat)].
Proof. split; reflexivity. Qed.

(** * Further facts *)

Import Series Tables Written.

(** ** Commas in a coordinate *)

Lemma replace_comma_cons (c : ascii) (r : string) :
  replace_from "," "" O (String c r)
  = if Ascii.eqb "," c then replace_from "," "" O r
    else String c (replace_from "," "" O r).
Proof.
  cbn [replace_from strip_prefix]. destruct (Ascii.eqb "," c); reflexivity.
Qed.

Lemma replace_comma_app (s x : string) :
  replace_from "," "" O (s ++ x)
  = replace_from "," "" O s ++ replace_from "," "" O x.
Proof.
  induction s as [|c r IH]; [reflexivity|].
  cbn [append]. rewrite !replace_comma_cons, IH.
  destruct (Ascii.eqb "," c); reflexivity.
Qed.

Lemma delocalize_comma (s1 s2 : string) :
  delocalize en_US (s1 ++ "," ++ s2) = delocalize en_US (s1 ++ s2).
Proof.
  unfold delocalize, en_US, replace. cbn [thousands_sep decimal_point is_empty].
  rewrite !replace_comma_app. reflexivity.
Qed.

(** X1: a comma anywhere in a coordinate text is ignored: the text with
    the comma and the text without it are cleaned to the same value. *)
Theorem clean_float_ignores_comma (s1 s2 : string) :
  clean_float (CStr (s1 ++ "," ++ s2)) = clean_float (CStr (s1 ++ s2)).
Proof.
  unfold clean_float, atof. rewrite delocalize_comma. reflexivity.
Qed.

(** ** Timestamps written in the form of the table *)

Lemma append_empty (s : string) : s ++ "" = s.
Proof. induction s as [|c r IH]; simpl; [|rewrite IH]; reflexivity. Qed.

Lemma regular_directive_H : regular directive_H.
Proof. unfold directive_H. auto 10 with regular. Qed.

Lemma regular_directive_M : regular directive_M.
Proof. unfold directive_M. auto 10 with regular. Qed.

Lemma regular_directive_S : regular directive_S.
Proof. unfold directive_S. auto 10 with regular. Qed.

(** A regular matcher that reads back the numbers of a range written
    with two digits, checked one by one, reads them back before any
    text. *)
Lemma regular_reads (p : matcher) (lo len : nat) :
  regular p ->
  forallb (fun k => match p (two_digits (Z.of_nat k)) with
                    | Some (v, EmptyString) => v =? Z.of_nat k
                    | _ => false
                    end) (seq lo len) = true ->
  forall n x, Z.of_nat lo <= n < Z.of_nat (lo + len) ->
              p (two_digits n ++ x) = Some (n, x).
Proof.
  intros (_ & _ & R) F n x Hn.
  rewrite forallb_forall in F.
  assert (Hin : In (Z.to_nat n) (seq lo len)) by (apply in_seq; lia).
  specialize (F _ Hin). rewrite Z2Nat.id in F by lia.
  unfold two_digits in *. rewrite R.
  destruct (p _) as [[v [|c r]]|]; try discriminate.
  apply Z.eqb_eq in F. subst v. reflexivity.
Qed.

Lemma directive_d_reads (d : Z) (x : string) :
  1 <= d <= 31 -> directive_d (two_digits d ++ x) = Some (d, x).
Proof.
  intro H. apply (regular_reads directive_d 1 31 regular_directive_d);
    [vm_compute; reflexivity|simpl; lia].
Qed.

Lemma directive_m_reads (m : Z) (x : string) :
  1 <= m <= 12 -> directive_m (two_digits m ++ x) = Some (m, x).
Proof.
  intro H. apply (regular_reads directive_m 1 12 regular_directive_m);
    [vm_compute; reflexivity|simpl; lia].
Qed.

Lemma directive_H_reads (hh : Z) (x : string) :
  0 <= hh <= 23 -> directive_H (two_digits hh ++ x) = Some (hh, x).
Proof.
  intro H. apply (regular_reads directive_H 0 24 regular_directive_H);
    [vm_compute; reflexivity|simpl; lia].
Qed.

Lemma directive_M_reads (mi : Z) (x : string) :
  0 <= mi <= 59 -> directive_M (two_digits mi ++ x) = Some (mi, x).
Proof.
  intro H. apply (regular_reads directive_M 0 60 regular_directive_M);
    [vm_compute; reflexivity|simpl; lia].
Qed.

Lemma directive_S_reads (ss : Z) (x : string) :
  0 <= ss <= 59 -> directive_S (two_digits ss ++ x) = Some (ss, x).
Proof.
  intro H. apply (regular_reads directive_S 0 60 regular_directive_S);
    [vm_compute; reflexivity|simpl; lia].
Qed.

Lemma directive_Y_reads (y : Z) (x : string) :
  0 <= y <= 9999 -> directive_Y (four_digits y ++ x) = Some (y, x).
Proof.
  intro H.
  assert (Hhi : 0 <= y / 100 < 100)
    by (split; [apply Z.div_pos; lia|apply Z.div_lt_upper_bound; lia]).
  pose proof (Z.mod_pos_bound y 100 ltac:(lia)) as Hlo.
  pose proof (regular_reads (two is_digit is_digit) 0 100
                (regular_two is_digit is_digit)
                ltac:(vm_compute; reflexivity)) as R.
  unfold directive_Y, four_digits.
  change ((two_digits (y / 100) ++ two_digits (y mod 100)) ++ x)
    with (two_digits (y / 100) ++ (two_digits (y mod 100) ++ x)).
  rewrite (R (y / 100) _) by (simpl; lia).
  rewrite (R (y mod 100) x) by (simpl; lia).
  pose proof (Z.div_mod y 100 ltac:(lia)). do 2 f_equal. lia.
Qed.

Lemma valid_date_bounds (y m d : Z) :
  valid_date y m d = true -> 1 <= y <= 9999 /\ 1 <= m <= 12 /\ 1 <= d <= 31.
Proof.
  unfold valid_date, days_in_month. intro H.
  repeat (apply andb_true_iff in H; destruct H as [H ?]).
  destruct (m =? 2); [destruct (is_leap y)|destruct (_ || _)]; lia.
Qed.

Lemma valid_time_bounds (hh mi ss : Z) :
  valid_time hh mi ss = true -> 0 <= hh <= 23 /\ 0 <= mi <= 59 /\ 0 <= ss <= 59.
Proof.
  unfold valid_time. intro H.
  repeat (apply andb_true_iff in H; destruct H as [H ?]). lia.
Qed.

(** A valid date, written, is a date text. *)
Lemma format_date_text (y m d : Z) :
  valid_date y m d = true -> date_text (format_date y m d) d m y.
Proof.
  intro V. apply valid_date_bounds in V. destruct V as (Hy & Hm & Hd).
  unfold date_text, re_date, format_date.
  rewrite directive_d_reads by exact Hd. cbn [obind].
  change (lit "/" ("/" ++ ?r)) with (Some r). cbn [obind].
  rewrite directive_m_reads by exact Hm. cbn [obind].
  change (lit "/" ("/" ++ ?r)) with (Some r). cbn [obind].
  rewrite <- (append_empty (four_digits y)).
  rewrite directive_Y_reads by lia. reflexivity.
Qed.

Lemma lstrip_two_digits (n : Z) (x : string) :
  0 <= n <= 99 -> lstrip (two_digits n ++ x) = two_digits n ++ x.
Proof.
  intro H. unfold two_digits. cbn [append lstrip].
  assert (E : isspace (digit_char (n / 10)) = false).
  { assert (Hq : 0 <= n / 10 < 10)
      by (split; [apply Z.div_pos; lia|apply Z.div_lt_upper_bound; lia]).
    unfold isspace, between, code, digit_char.
    rewrite nat_ascii_embedding by lia. rewrite Z2Nat.id by lia.
    repeat (apply orb_false_iff; split);
      try (apply andb_false_iff; left; apply Z.leb_gt; lia);
      try (apply andb_false_iff; right; apply Z.leb_gt; lia);
      apply Z.eqb_neq; lia. }
  rewrite E. reflexivity.
Qed.

Lemma format_time_text (hh mi ss : Z) :
  valid_time hh mi ss = true ->
  re_time (format_time hh mi ss) = Some (hh, mi, ss, EmptyString).
Proof.
  intro V. apply valid_time_bounds in V. destruct V as (Hh & Hm & Hs).
  unfold re_time, format_time.
  rewrite directive_H_reads by exact Hh. cbn [obind].
  change (lit ":" (":" ++ ?r)) with (Some r). cbn [obind].
  rewrite directive_M_reads by exact Hm. cbn [obind].
  change (lit ":" (":" ++ ?r)) with (Some r). cbn [obind].
  rewrite <- (append_empty (two_digits ss)).
  rewrite directive_S_reads by exact Hs. reflexivity.
Qed.

(** X2: every valid date and time of day, written as the table writes
    them (two digits for day, month, hour, minute and second, four for
    the year), is merged into the timestamp with exactly those fields. *)
Theorem timestamp_merge_written (y m d hh mi ss : Z) :
  valid_date y m d = true -> valid_time hh mi ss = true ->
  timestamp_merge (CStr (format_date y m d)) (CStr (format_time hh mi ss))
  = Ok (mk_datetime y m d hh mi ss).
Proof.
  intros Vd Vt. unfold timestamp_merge, hora_or_midnight.
  rewrite (strptime_date_then_time _ _ _ _ _ (format_date_text _ _ _ Vd)).
  pose proof (valid_time_bounds _ _ _ Vt) as (Hh & _ & _).
  unfold format_time at 1. rewrite lstrip_two_digits by lia.
  fold (format_time hh mi ss). rewrite (format_time_text _ _ _ Vt).
  unfold datetime_new. rewrite Vd, Vt. reflexivity.
Qed.

Lemma timestamp_merge_written_witness :
  timestamp_merge (CStr (format_date 2020 2 29)) (CStr (format_time 23 59 59))
  = Ok (mk_datetime 2020 2 29 23 59 59).
Proof. apply (timestamp_merge_written 2020 2 29 23 59 59); reflexivity. Defined.

(** X3: a date text whose day does not exist in its month (or whose
    year is 0) makes the merge raise [ValueError], whatever the time
    cell holds. *)
Theorem timestamp_merge_impossible_date
  (dia : string) (d m y : Z) (hora : cell) :
  date_text dia d m y -> valid_date y m d = false ->
  timestamp_merge (CStr dia) hora = Raise ValueError.
Proof.
  intros Hd Hv. unfold timestamp_merge.
  rewrite (strptime_date_then_time _ _ _ _ _ Hd).
  destruct (re_time _) as [[[[hh mi] ss] [|c r]]|]; try reflexivity.
  unfold datetime_new. rewrite Hv. reflexivity.
Qed.

Lemma timestamp_merge_impossible_date_witness :
  timestamp_merge (CStr "31/02/2020") (CStr "10:00:00") = Raise ValueError.
Proof.
  apply (timestamp_merge_impossible_date "31/02/2020" 31 2 2020
           (CStr "10:00:00")); reflexivity.
Defined.

Lemma timestamp_merge_text_witness :
  exists hh mi ss,
    re_time (lstrip " 9:05:07") = Some (hh, mi, ss, EmptyString)
    /\ mk_datetime 2020 3 7 9 5 7 = mk_datetime 2020 3 7 hh mi ss
    /\ valid_datetime (mk_datetime 2020 3 7 9 5 7) = true.
Proof.
  apply (timestamp_merge_text "7/3/2020" " 9:05:07" 7 3 2020
           (mk_datetime 2020 3 7 9 5 7)); reflexivity.
Defined.

(** ** The cleanup of the whole table *)

Lemma strptime_raises (s : string) (e : exn) :
  strptime s = Raise e -> e = ValueError.
Proof.
  unfold strptime.
  destruct (obind (re_date s) _) as [[[[[[[y m] d] hh] mi] ss] [|c r]]|];
    try congruence.
  unfold datetime_new. destruct (_ && _); congruence.
Qed.

Lemma timestamp_merge_raises (dia hora : cell) (e : exn) :
  timestamp_merge dia hora = Raise e -> e = ValueError \/ e = TypeError.
Proof.
  destruct dia as [f|d|n|b]; simpl;
    try (intro H; injection H as <-; right; reflexivity).
  intro H. left. exact (strptime_raises _ _ H).
Qed.

Lemma timestamp_merge_valid (dia hora : cell) (dt : datetime) :
  timestamp_merge dia hora = Ok dt -> valid_datetime dt = true.
Proof.
  destruct dia as [f|d|n|b]; simpl; try discriminate. apply strptime_valid.
Qed.

(** A column of coordinates is cleaned unless it holds a number that is
    not a float. *)
Lemma coordinates_cleaned (cells : list cell) :
  if existsb whole_number cells
  then apply_rows clean_float cells = Raise AttributeError
  else exists fs, apply_rows clean_float cells = Ok fs.
Proof.
  induction cells as [|c cells IH]; cbn [existsb apply_rows].
  - exists []. reflexivity.
  - destruct c as [f|s|n|b]; cbn [whole_number orb];
      try reflexivity.
    + cbn [clean_float bind].
      destruct (existsb whole_number cells).
      * rewrite IH. reflexivity.
      * destruct IH as [fs ->]. eexists. reflexivity.
    + rewrite clean_float_text. cbn [bind].
      destruct (existsb whole_number cells).
      * rewrite IH. reflexivity.
      * destruct IH as [fs ->]. eexists. reflexivity.
Qed.

Lemma forall2_defined {A B : Type} (f : A -> pyresult B) (l : list A)
  (vs : list B) :
  Forall2 (fun x v => f x = Ok v) l vs ->
  Forall (fun x => exists v, f x = Ok v) l.
Proof.
  induction 1 as [|x v l vs Hx _ IH]; constructor; [exists v; exact Hx|exact IH].
Qed.

Lemma cleanup_nonempty (df : list Raw.occurrence) :
  df <> [] ->
  cleanup df
  = (datas <- apply_rows merge_row df ;;
     lats <- apply_rows clean_float (map Raw.ocorrencia_latitude df) ;;
     lons <- apply_rows clean_float (map Raw.ocorrencia_longitude df) ;;
     Ok (assemble df datas lats lons)).
Proof. destruct df; [congruence|reflexivity]. Qed.

Lemma assemble_rows (df : list Raw.occurrence) :
  forall datas lats lons,
    Forall2 (fun r t => merge_row r = Ok t) df datas ->
    Forall2 (fun c f => clean_float c = Ok f)
            (map Raw.ocorrencia_latitude df) lats ->
    Forall2 (fun c f => clean_float c = Ok f)
            (map Raw.ocorrencia_longitude df) lons ->
    Forall2 (fun r c =>
               codigo_ocorrencia c = Raw.codigo_ocorrencia r
               /\ ocorrencia_classificacao c = Raw.ocorrencia_classificacao r
               /\ ocorrencia_cidade c = Raw.ocorrencia_cidade r
               /\ timestamp_merge (Raw.ocorrencia_dia r)
                                  (Raw.ocorrencia_hora r)
                  = Ok (ocorrencia_data c)
               /\ valid_datetime (ocorrencia_data c) = true
               /\ clean_float (Raw.ocorrencia_latitude r)
                  = Ok (ocorrencia_latitude c)
               /\ clean_float (Raw.ocorrencia_longitude r)
                  = Ok (ocorrencia_longitude c))
            df (assemble df datas lats lons).
Proof.
  induction df as [|r df IH]; intros datas lats lons Hd Hla Hlo.
  - constructor.
  - cbn [map] in Hla, Hlo.
    inversion Hd as [|? t ? datas' Ht Hd']; subst.
    inversion Hla as [|? la ? lats' Hl1 Hla']; subst.
    inversion Hlo as [|? lo ? lons' Hl2 Hlo']; subst.
    cbn [assemble]. constructor; [|apply IH; assumption].
    cbn [codigo_ocorrencia ocorrencia_classificacao ocorrencia_cidade
         ocorrencia_data ocorrencia_latitude ocorrencia_longitude].
    repeat split; auto. exact (timestamp_merge_valid _ _ _ Ht).
Qed.

(** X5: when the cleanup goes through, the cleaned table has the rows
    of the raw one, in the same order: each keeps its code, class and
    city, its timestamp is the merge of its date and time and is a real
    date and time of day, and each coordinate is its raw cell cleaned. *)
Theorem cleanup_rows (df : list Raw.occurrence) (rows : list occurrence) :
  cleanup df = Ok rows ->
  Forall2 (fun r c =>
             codigo_ocorrencia c = Raw.codigo_ocorrencia r
             /\ ocorrencia_classificacao c = Raw.ocorrencia_classificacao r
             /\ ocorrencia_cidade c = Raw.ocorrencia_cidade r
             /\ timestamp_merge (Raw.ocorrencia_dia r) (Raw.ocorrencia_hora r)
                = Ok (ocorrencia_data c)
             /\ valid_datetime (ocorrencia_data c) = true
             /\ clean_float (Raw.ocorrencia_latitude r)
                = Ok (ocorrencia_latitude c)
             /\ clean_float (Raw.ocorrencia_longitude r)
                = Ok (ocorrencia_longitude c))
          df rows.
Proof.
  intro H.
  assert (Hne : df <> []) by (intros ->; discriminate).
  rewrite (cleanup_nonempty df Hne) in H.
  destruct (apply_rows merge_row df) as [datas|e] eqn:Ed;
    cbn [bind] in H; [|discriminate].
  destruct (apply_rows clean_float (map Raw.ocorrencia_latitude df))
    as [lats|e] eqn:Ela; cbn [bind] in H; [|discriminate].
  destruct (apply_rows clean_float (map Raw.ocorrencia_longitude df))
    as [lons|e] eqn:Elo; cbn [bind] in H; [|discriminate].
  injection H as <-.
  apply assemble_rows; apply apply_rows_ok; assumption.
Qed.

Lemma cleanup_rows_witness :
  Forall2 (fun r c =>
             codigo_ocorrencia c = Raw.codigo_ocorrencia r
             /\ ocorrencia_classificacao c = Raw.ocorrencia_classificacao r
             /\ ocorrencia_cidade c = Raw.ocorrencia_cidade r
             /\ timestamp_merge (Raw.ocorrencia_dia r) (Raw.ocorrencia_hora r)
                = Ok (ocorrencia_data c)
             /\ valid_datetime (ocorrencia_data c) = true
             /\ clean_float (Raw.ocorrencia_latitude r)
                = Ok (ocorrencia_latitude c)
             /\ clean_float (Raw.ocorrencia_longitude r)
                = Ok (ocorrencia_longitude c))
          [raw_without_longitude] [row_without_longitude].
Proof.
  apply (cleanup_rows [raw_without_longitude] [row_without_longitude]).
  reflexivity.
Defined.

Lemma whole_number_row (df : list Raw.occurrence)
  (column : Raw.occurrence -> cell) :
  existsb whole_number (map column df) = true <->
  Exists (fun r => whole_number (column r) = true) df.
Proof.
  rewrite existsb_exists, Exists_exists. split.
  - intros (c & Hc & Hw). apply in_map_iff in Hc.
    destruct Hc as (r & <- & Hr). exists r. auto.
  - intros (r & Hr & Hw). exists (column r). split; [|exact Hw].
    apply in_map. exact Hr.
Qed.

(** X6: the cleanup raises in three cases and in no other.  On a table
    without rows it raises [ValueError].  When some row has a date and
    a time that cannot be merged, it raises the error of the first such
    row, a [ValueError] or a [TypeError].  When every row merges and some
    coordinate cell is a number that is not a float, it raises
    [AttributeError]. *)
Theorem cleanup_raises (df : list Raw.occurrence) (e : exn) :
  cleanup df = Raise e <->
  (df = [] /\ e = ValueError)
  \/ (exists before r rest,
        df = (before ++ r :: rest)%list
        /\ Forall merges before
        /\ merge_row r = Raise e
        /\ (e = ValueError \/ e = TypeError))
  \/ (df <> [] /\ Forall merges df /\ e = AttributeError
      /\ Exists (fun r => whole_number (Raw.ocorrencia_latitude r) = true
                          \/ whole_number (Raw.ocorrencia_longitude r) = true)
                df).
Proof.
  destruct df as [|r0 df0].
  - cbn [cleanup]. split.
    + intro H. injection H as <-. left. auto.
    + intros [[_ ->]|[(before & r & rest & E & _)|(H & _)]].
      * reflexivity.
      * destruct before; discriminate.
      * exfalso. apply H. reflexivity.
  - assert (Hne : r0 :: df0 <> []) by discriminate.
    rewrite (cleanup_nonempty _ Hne). revert Hne.
    generalize (r0 :: df0). intros df Hne.
    pose proof (coordinates_cleaned (map Raw.ocorrencia_latitude df)) as Hla.
    pose proof (coordinates_cleaned (map Raw.ocorrencia_longitude df)) as Hlo.
    destruct (apply_rows merge_row df) as [datas|e1] eqn:Em; cbn [bind].
    + assert (Hm : Forall merges df).
      { apply apply_rows_ok in Em. exact (forall2_defined _ _ _ Em). }
      assert (Hno : forall before r rest,
                 df = (before ++ r :: rest)%list ->
                 merge_row r = Raise e -> False).
      { intros before r rest E Hr. rewrite Forall_forall in Hm.
        destruct (Hm r) as [dt Hdt]; [|congruence].
        rewrite E. apply in_or_app. right. left. reflexivity. }
      destruct (existsb whole_number (map Raw.ocorrencia_latitude df))
        eqn:Ela.
      * rewrite Hla. cbn [bind]. split.
        -- intro H. injection H as <-. right. right.
           repeat split; auto.
           apply whole_number_row in Ela. apply Exists_or. left. exact Ela.
        -- intros [[H _]|[(before & r & rest & E & _ & Hr & _)
                         |(_ & _ & -> & _)]].
           ++ contradiction.
           ++ exfalso. exact (Hno _ _ _ E Hr).
           ++ reflexivity.
      * destruct Hla as [lats ->]. cbn [bind].
        destruct (existsb whole_number (map Raw.ocorrencia_longitude df))
          eqn:Elo.
        -- rewrite Hlo. cbn [bind]. split.
           ++ intro H. injection H as <-. right. right.
              repeat split; auto.
              apply whole_number_row in Elo. apply Exists_or. right.
              exact Elo.
           ++ intros [[H _]|[(before & r & rest & E & _ & Hr & _)
                            |(_ & _ & -> & _)]].
              ** contradiction.
              ** exfalso. exact (Hno _ _ _ E Hr).
              ** reflexivity.
        -- destruct Hlo as [lons ->]. cbn [bind]. split; [discriminate|].
           intros [[H _]|[(before & r & rest & E & _ & Hr & _)
                         |(_ & _ & _ & Hw)]].
           ++ contradiction.
           ++ exfalso. exact (Hno _ _ _ E Hr).
           ++ exfalso. apply Exists_or_inv in Hw.
              destruct Hw as [Hw|Hw];
                apply (whole_number_row df) in Hw; congruence.
    + split.
      * intro H. injection H as <-. right. left.
        apply apply_rows_raise in Em.
        destruct Em as (before & r & rest & E & Hb & Hr).
        exists before, r, rest. repeat split; auto.
        exact (timestamp_merge_raises _ _ _ Hr).
      * intros [[H _]|[(before & r & rest & E & Hb & Hr & _)
                      |(_ & Hm & _)]].
        -- contradiction.
        -- assert (H : apply_rows merge_row df = Raise e)
             by (apply apply_rows_raise; exists before, r, rest; auto).
           congruence.
        -- exfalso. apply apply_rows_raise in Em.
           destruct Em as (before & r & rest & E & _ & Hr).
           rewrite Forall_forall in Hm.
           destruct (Hm r) as [dt Hdt]; [|congruence].
           rewrite E. apply in_or_app. right. left. reflexivity.
Qed.

(** ** The shape of a category *)

Lemma categoria_text (s : string) :
  ocorrencia_tipo_categoria (CStr s) = Ok (strip (before_first "|" s)).
Proof. unfold ocorrencia_tipo_categoria. rewrite item0_split. reflexivity. Qed.

Lemma lacks_before_first (sep : ascii) (s : string) :
  lacks sep (before_first sep s) = true.
Proof.
  induction s as [|c r IH]; simpl; [reflexivity|].
  destruct (Ascii.eqb c sep) eqn:E; simpl; [reflexivity|].
  rewrite E, IH. reflexivity.
Qed.

Lemma before_first_lacks (sep : ascii) (s : string) :
  lacks sep s = true -> before_first sep s = s.
Proof.
  induction s as [|c r IH]; simpl; [reflexivity|].
  intro H. apply andb_true_iff in H. destruct H as [H1 H2].
  apply negb_true_iff in H1. rewrite H1, (IH H2). reflexivity.
Qed.

Lemma lacks_lstrip (c : ascii) (s : string) :
  lacks c s = true -> lacks c (lstrip s) = true.
Proof.
  induction s as [|a r IH]; simpl; [reflexivity|].
  intro H. destruct (isspace a); [|exact H].
  apply andb_true_iff in H. apply IH, H.
Qed.

Lemma lacks_rstrip (c : ascii) (s : string) :
  lacks c s = true -> lacks c (rstrip s) = true.
Proof.
  induction s as [|a r IH]; simpl; [reflexivity|].
  intro H. apply andb_true_iff in H. destruct H as [H1 H2].
  destruct (isspace a && is_empty (rstrip r)); simpl; [reflexivity|].
  rewrite H1, (IH H2). reflexivity.
Qed.

Lemma rstrip_idempotent (s : string) : rstrip (rstrip s) = rstrip s.
Proof.
  induction s as [|a r IH]; simpl; [reflexivity|].
  destruct (isspace a && is_empty (rstrip r)) eqn:E; simpl; [reflexivity|].
  rewrite IH, E. reflexivity.
Qed.

Lemma first_char_lstrip (s : string) : visible (first_char (lstrip s)) = true.
Proof.
  induction s as [|a r IH]; simpl; [reflexivity|].
  destruct (isspace a) eqn:E; [exact IH|]. simpl. rewrite E. reflexivity.
Qed.

Lemma lstrip_visible (s : string) :
  visible (first_char s) = true -> lstrip s = s.
Proof.
  destruct s as [|a r]; simpl; [reflexivity|].
  intro H. apply negb_true_iff in H. rewrite H. reflexivity.
Qed.

Lemma first_char_rstrip (s : string) :
  visible (first_char s) = true -> visible (first_char (rstrip s)) = true.
Proof.
  destruct s as [|a r]; simpl; [reflexivity|].
  intro H. destruct (isspace a && is_empty (rstrip r)); [reflexivity|exact H].
Qed.

Lemma last_char_rstrip (s : string) : visible (last_char (rstrip s)) = true.
Proof.
  induction s as [|a r IH]; simpl; [reflexivity|].
  destruct (isspace a) eqn:Ea; simpl.
  - destruct (rstrip r) as [|b t] eqn:Er; simpl; [reflexivity|exact IH].
  - destruct (rstrip r) as [|b t] eqn:Er; simpl; [|exact IH].
    rewrite Ea. reflexivity.
Qed.

Lemma strip_idempotent (s : string) : strip (strip s) = strip s.
Proof.
  unfold strip.
  rewrite (lstrip_visible (rstrip (lstrip s))).
  - apply rstrip_idempotent.
  - apply first_char_rstrip, first_char_lstrip.
Qed.

(** X7: running the category cell again changes nothing: the category
    of a category is that category. *)
Theorem categoria_idempotent (s : string) :
  (c <- ocorrencia_tipo_categoria (CStr s) ;;
   ocorrencia_tipo_categoria (CStr c))
  = ocorrencia_tipo_categoria (CStr s).
Proof.
  rewrite (categoria_text s). cbn [bind]. rewrite categoria_text.
  rewrite before_first_lacks.
  - rewrite strip_idempotent. reflexivity.
  - unfold strip. apply lacks_rstrip, lacks_lstrip, lacks_before_first.
Qed.

(** X8: every text has a category, and the category holds no pipe and
    neither starts nor ends with a space. *)
Theorem categoria_shape (s : string) :
  exists c, ocorrencia_tipo_categoria (CStr s) = Ok c
            /\ lacks "|" c = true
            /\ visible (first_char c) = true
            /\ visible (last_char c) = true.
Proof.
  exists (strip (before_first "|" s)). split; [apply categoria_text|].
  unfold strip. repeat split.
  - apply lacks_rstrip, lacks_lstrip, lacks_before_first.
  - apply first_char_rstrip, first_char_lstrip.
  - apply last_char_rstrip.
Qed.

(** ** Months and classes together *)

Lemma filter_all {A : Type} (p : A -> bool) (l : list A) :
  (forall x, In x l -> p x = true) -> filter p l = l.
Proof.
  induction l as [|x l IH]; simpl; intro H; [reflexivity|].
  rewrite (H x (or_introl eq_refl)). f_equal. apply IH.
  intros y Hy. apply H. right. exact Hy.
Qed.

Lemma length_filter_or {A : Type} (p q : A -> bool) (l : list A) :
  (forall x, In x l -> p x = true -> q x = false) ->
  List.length (filter (fun x => p x || q x) l)
  = (List.length (filter p l) + List.length (filter q l))%nat.
Proof.
  induction l as [|x l IH]; simpl; intro H; [reflexivity|].
  assert (IH' := IH (fun y Hy => H y (or_intror Hy))).
  destruct (p x) eqn:Ep; simpl.
  - rewrite (H x (or_introl eq_refl) Ep). simpl. rewrite IH'. reflexivity.
  - destruct (q x); simpl; rewrite IH'; lia.
Qed.

Lemma in_group_true (k : group_key) (r : occurrence) :
  in_group k r = true <-> key_of r = Some k.
Proof.
  unfold in_group. destruct (key_of r) as [k'|].
  - rewrite key_eqb_eq. split; [intros ->; reflexivity|].
    intro H. injection H as ->. reflexivity.
  - split; discriminate.
Qed.

(** The rows counted key by key, for keys that are all different, are
    the rows whose key is one of them. *)
Lemma count_partition (keys : list group_key) (df : list occurrence) :
  NoDup keys ->
  sum_counts
    (map (fun k => List.length (filter (in_group k) df)) keys)
  = List.length
      (filter (fun r => existsb (fun k => in_group k r) keys) df).
Proof.
  induction 1 as [|a keys Ha Hk IH]; simpl.
  - rewrite filter_false. reflexivity.
  - rewrite IH. symmetry. apply length_filter_or.
    intros r _ Er. apply in_group_true in Er.
    destruct (existsb _ keys) eqn:E; [|reflexivity].
    apply existsb_exists in E. destruct E as (k & Hin & Ek).
    apply in_group_true in Ek. rewrite Er in Ek. injection Ek as <-.
    contradiction.
Qed.

Lemma length_filter_split {A : Type} (p : A -> bool) (l : list A) :
  (List.length (filter (fun x => negb (p x)) l)
   + List.length (filter p l))%nat
  = List.length l.
Proof.
  induction l as [|x l IH]; simpl; [reflexivity|].
  destruct (p x); simpl; lia.
Qed.

(** Two month ends are in the same month when they are the same. *)
Lemma same_month_ends (k k0 : Z) :
  same_month (month_end k) (month_end k0) = (k =? k0).
Proof.
  unfold same_month, month_end. cbn [year month].
  pose proof (Z.div_mod k 12 ltac:(lia)) as D.
  pose proof (Z.div_mod k0 12 ltac:(lia)) as D0.
  destruct (k =? k0) eqn:E.
  - apply Z.eqb_eq in E. subst k0. rewrite !Z.eqb_refl. reflexivity.
  - apply Z.eqb_neq in E. apply andb_false_iff.
    destruct (Z.eq_dec (k / 12) (k0 / 12)) as [Ey|Ey].
    + right. apply Z.eqb_neq. lia.
    + left. apply Z.eqb_neq. exact Ey.
Qed.

(** The rows that some group counts are the rows that have a class. *)
Lemma grouped_rows (df : list occurrence) (r : occurrence) :
  In r df ->
  existsb (fun k => in_group k r) (sort_keys (observed (keys_of df)))
  = negb (lacks_class r).
Proof.
  intro Hr. unfold lacks_class.
  destruct (ocorrencia_classificacao r) as [c|] eqn:Ec; cbn [negb].
  - apply existsb_exists.
    exists (month_index (ocorrencia_data r), c).
    assert (Ek : key_of r = Some (month_index (ocorrencia_data r), c))
      by (apply key_of_some; auto).
    split; [|apply in_group_true; exact Ek].
    apply groups_of, in_keys_of. exists r. auto.
  - destruct (existsb _ _) eqn:E; [|reflexivity].
    apply existsb_exists in E. destruct E as ([k c] & _ & Ek).
    apply in_group_true, key_of_some in Ek. destruct Ek as [Ek _].
    congruence.
Qed.

(** X10: for every table of timestamps of the years 1678 to 2261 the
    count per month and class returns a result, and its counts,
    together with the number of rows whose class is missing, add up to
    the number of rows: a row with a class is counted in exactly one
    entry, a row without a class in none. *)
Theorem occurrence_in_time_by_class_total (df : list occurrence) :
  Forall (fun r => groupable (ocorrencia_data r) = true) df ->
  exists out,
    occurrence_in_time_by_class df = Ok out
    /\ (sum_counts (map snd out) + List.length (filter lacks_class df))%nat
       = List.length df.
Proof.
  intro G. eexists. split; [exact (by_class_groupable df G)|].
  rewrite map_map. cbn [snd].
  rewrite count_partition by apply groups_nodup.
  rewrite (filter_ext_in _ (fun r => negb (lacks_class r)))
    by (intros r Hr; apply grouped_rows; exact Hr).
  apply length_filter_split.
Qed.

Lemma occurrence_in_time_by_class_total_witness :
  exists out,
    occurrence_in_time_by_class [row_january; row_march; row_unclassified]
    = Ok out
    /\ (sum_counts (map snd out)
        + List.length
            (filter lacks_class [row_january; row_march; row_unclassified]))%nat
       = List.length [row_january; row_march; row_unclassified].
Proof.
  apply (occurrence_in_time_by_class_total
           [row_january; row_march; row_unclassified]).
  repeat constructor.
Defined.

(** The counts of the groups of one month add up to the number of rows
    of that month that have a class. *)
Lemma by_class_month_sum (df : list occurrence) (k0 : Z) :
  sum_counts
    (map snd
       (filter (fun g => same_month (fst (fst g)) (month_end k0))
          (map (fun k =>
                  (month_end (fst k), snd k,
                   List.length (filter (in_group k) df)))
               (sort_keys (observed (keys_of df))))))
  = List.length
      (filter (fun r => negb (lacks_class r) && in_month k0 r) df).
Proof.
  rewrite filter_map_swap, map_map. cbn [fst snd].
  rewrite (filter_ext _ (fun k => fst k =? k0))
    by (intro k; apply same_month_ends).
  rewrite count_partition by (apply NoDup_filter, groups_nodup).
  f_equal. apply filter_ext_in. intros r Hr.
  rewrite <- (grouped_rows df r Hr). unfold in_month.
  destruct (month_index (ocorrencia_data r) =? k0) eqn:E.
  - rewrite andb_true_r.
    destruct (existsb _ (sort_keys _)) eqn:Ex.
    + apply existsb_exists in Ex. destruct Ex as (k & Hin & Ek).
      apply existsb_exists. exists k. split; [|exact Ek].
      apply filter_In. split; [exact Hin|].
      destruct k as [k c]. apply in_group_true, key_of_some in Ek.
      cbn [fst]. destruct Ek as [_ <-]. exact E.
    + destruct (existsb _ (filter _ _)) eqn:Ex'; [|reflexivity].
      apply existsb_exists in Ex'. destruct Ex' as (k & Hin & Ek).
      apply filter_In in Hin.
      assert (Ex2 : existsb (fun k => in_group k r)
                      (sort_keys (observed (keys_of df))) = true)
        by (apply existsb_exists; exists k; tauto).
      congruence.
  - rewrite andb_false_r.
    destruct (existsb _ (filter _ _)) eqn:Ex; [|reflexivity].
    apply existsb_exists in Ex. destruct Ex as ([k c] & Hin & Ek).
    apply filter_In in Hin. destruct Hin as [_ Hk]. cbn [fst] in Hk.
    apply in_group_true, key_of_some in Ek. destruct Ek as [_ Ek].
    apply Z.eqb_eq in Hk. apply Z.eqb_neq in E. congruence.
Qed.

(** X11: for every table of timestamps of the years 1678 to 2261 the
    two results agree month by month: the count of a month in the
    result per month is the sum of the counts that the result per month
    and class holds for that month (0 when it holds none) and of the
    number of rows of that month whose class is missing. *)
Theorem occurencies_in_time_sums_classes (df : list occurrence) :
  Forall (fun r => groupable (ocorrencia_data r) = true) df ->
  exists per_month per_class,
    occurencies_in_time df = Ok per_month
    /\ occurrence_in_time_by_class df = Ok per_class
    /\ Forall (fun e =>
                 snd e
                 = (sum_counts
                      (map snd
                           (filter (fun g => same_month (fst (fst g)) (fst e))
                                   per_class))
                    + List.length
                        (filter (fun r =>
                                   lacks_class r
                                   && same_month (ocorrencia_data r) (fst e))
                                df))%nat)
              per_month.
Proof.
  intro G.
  assert (V : forall r, In r df -> valid_datetime (ocorrencia_data r) = true).
  { intros r Hr. rewrite Forall_forall in G. apply groupable_valid, G, Hr. }
  destruct (map (fun r => month_index (ocorrencia_data r)) df)
    as [|k ks] eqn:E.
  - apply map_eq_nil in E. subst df. exists [], [].
    repeat split. constructor.
  - eexists. eexists.
    split; [exact (occurencies_in_time_groupable df k ks G E)|].
    split; [exact (by_class_groupable df G)|].
    apply Forall_forall. intros [t n] Hin. cbn [fst snd].
    apply in_map_iff in Hin. destruct Hin as (b & Eb & _).
    injection Eb as <- <-.
    rewrite by_class_month_sum.
    rewrite (filter_ext_in
               (fun r => lacks_class r
                         && same_month (ocorrencia_data r) (month_end b))
               (fun r => lacks_class r && in_month b r))
      by (intros r Hr; rewrite (in_month_same b r (V r Hr)); reflexivity).
    rewrite <- !filter_twice.
    rewrite Nat.add_comm.
    rewrite <- (length_filter_split lacks_class (filter (in_month b) df)).
    rewrite !filter_twice. rewrite Nat.add_comm. f_equal.
    + f_equal. apply filter_ext. intro r. apply andb_comm.
    + f_equal. apply filter_ext. intro r. apply andb_comm.
Qed.

Lemma occurencies_in_time_sums_classes_witness :
  exists per_month per_class,
    occurencies_in_time [row_january; row_march; row_unclassified]
    = Ok per_month
    /\ occurrence_in_time_by_class [row_january; row_march; row_unclassified]
       = Ok per_class
    /\ Forall (fun e =>
                 snd e
                 = (sum_counts
                      (map snd
                           (filter (fun g => same_month (fst (fst g)) (fst e))
                                   per_class))
                    + List.length
                        (filter (fun r =>
                                   lacks_class r
                                   && same_month (ocorrencia_data r) (fst e))
                                [row_january; row_march; row_unclassified]))%nat)
              per_month.
Proof.
  apply (occurencies_in_time_sums_classes
           [row_january; row_march; row_unclassified]).
  repeat constructor.
Defined.

(** The order of the groups *)

Lemma key_compare_eq (a b : group_key) : key_compare a b = Eq -> a = b.
Proof.
  destruct a as [ka ca], b as [kb cb]. unfold key_compare. simpl.
  destruct (Z.compare_spec ka kb) as [E|L|G]; try discriminate.
  intro H. apply String.compare_eq_iff in H. subst. reflexivity.
Qed.

Lemma key_compare_antisym (a b : group_key) :
  key_compare a b = CompOpp (key_compare b a).
Proof.
  unfold key_compare. rewrite (Z.compare_antisym (fst a) (fst b)).
  destruct (fst a ?= fst b); simpl; try reflexivity.
  apply String.compare_antisym.
Qed.

Lemma ascii_compare_trans (a b c : ascii) :
  Ascii.compare a b = Lt -> Ascii.compare b c = Lt -> Ascii.compare a c = Lt.
Proof.
  unfold Ascii.compare. rewrite !N.compare_lt_iff. apply N.lt_trans.
Qed.

Lemma string_compare_trans (s1 : string) :
  forall s2 s3, String.compare s1 s2 = Lt -> String.compare s2 s3 = Lt ->
                String.compare s1 s3 = Lt.
Proof.
  induction s1 as [|a s1 IH]; intros [|b s2] [|c s3]; simpl;
    try discriminate; try reflexivity.
  destruct (Ascii.compare a b) eqn:Eab; try discriminate;
    destruct (Ascii.compare b c) eqn:Ebc; try discriminate.
  - apply Ascii.compare_eq_iff in Eab, Ebc. subst.
    assert (E : Ascii.compare c c = Eq)
      by (unfold Ascii.compare; apply N.compare_refl).
    rewrite E. apply IH.
  - apply Ascii.compare_eq_iff in Eab. subst. rewrite Ebc. reflexivity.
  - apply Ascii.compare_eq_iff in Ebc. subst. rewrite Eab. reflexivity.
  - rewrite (ascii_compare_trans _ _ _ Eab Ebc). reflexivity.
Qed.

Lemma key_lt_trans (a b c : group_key) :
  key_lt a b -> key_lt b c -> key_lt a c.
Proof.
  unfold key_lt, key_compare.
  destruct (Z.compare_spec (fst a) (fst b)) as [E1|L1|G1]; try discriminate;
    destruct (Z.compare_spec (fst b) (fst c)) as [E2|L2|G2]; try discriminate;
    intros H1 H2.
  - rewrite E1, E2, Z.compare_refl. exact (string_compare_trans _ _ _ H1 H2).
  - rewrite E1. apply Z.compare_lt_iff in L2. rewrite L2. reflexivity.
  - rewrite <- E2. apply Z.compare_lt_iff in L1. rewrite L1. reflexivity.
  - assert (L : fst a < fst c) by lia.
    apply Z.compare_lt_iff in L. rewrite L. reflexivity.
Qed.

Lemma sorted_insert_key (x : group_key) (l : list group_key) :
  ~ In x l -> Sorted key_lt l -> Sorted key_lt (insert_key x l).
Proof.
  induction l as [|y l IH]; simpl; intros Hx Hs.
  - constructor; constructor.
  - destruct (key_compare x y) eqn:E.
    + apply key_compare_eq in E. subst y. elim Hx. left. reflexivity.
    + constructor; [exact Hs|constructor; exact E].
    + inversion Hs as [|? ? Hs' Hd]; subst.
      constructor; [apply IH; tauto|].
      assert (Hyx : key_lt y x).
      { unfold key_lt. rewrite key_compare_antisym, E. reflexivity. }
      destruct l as [|z l]; simpl.
      * constructor. exact Hyx.
      * destruct (key_compare x z); constructor; try exact Hyx.
        inversion Hd; assumption.
Qed.

Lemma sorted_sort_keys (l : list group_key) :
  NoDup l -> Sorted key_lt (sort_keys l).
Proof.
  induction 1 as [|x l Hx Hl IH]; simpl; [constructor|].
  apply sorted_insert_key; [rewrite in_sort_keys; exact Hx|exact IH].
Qed.

(** A later month ends later. *)
Lemma month_end_increasing (k1 k2 : Z) :
  k1 < k2 -> dt_compare (month_end k1) (month_end k2) = Lt.
Proof.
  intro H. unfold dt_compare, month_end. cbn [year month].
  pose proof (Z.div_mod k1 12 ltac:(lia)) as D1.
  pose proof (Z.div_mod k2 12 ltac:(lia)) as D2.
  pose proof (Z.mod_pos_bound k1 12 ltac:(lia)) as B1.
  pose proof (Z.mod_pos_bound k2 12 ltac:(lia)) as B2.
  destruct (Z.compare_spec (k1 / 12) (k2 / 12)) as [Ey|Ly|Gy];
    [|reflexivity|lia].
  destruct (Z.compare_spec (k1 mod 12 + 1) (k2 mod 12 + 1));
    [lia|reflexivity|lia].
Qed.

Lemma key_lt_entry_lt (a b : group_key) :
  key_lt a b ->
  entry_lt (month_end (fst a), snd a) (month_end (fst b), snd b).
Proof.
  unfold key_lt, key_compare, entry_lt. cbn [fst snd].
  destruct (Z.compare_spec (fst a) (fst b)) as [E|L|G]; try discriminate.
  - intro H. right. rewrite E. auto.
  - intros _. left. apply month_end_increasing. exact L.
Qed.

Lemma strongly_sorted_map {A B : Type} (R : A -> A -> Prop)
  (S : B -> B -> Prop) (f : A -> B) (l : list A) :
  (forall a b, R a b -> S (f a) (f b)) ->
  StronglySorted R l -> StronglySorted S (map f l).
Proof.
  intro H. induction 1 as [|a l Hl IH Ha]; cbn [map]; constructor.
  - exact IH.
  - apply Forall_map. apply (Forall_impl _ (H a)). exact Ha.
Qed.

(** X12: for every table of timestamps of the years 1678 to 2261 the
    entries per month and class come in order: each entry is for a
    month that ends before the month of every entry after it, or for
    the same month and a class that comes before in the order of the
    code points. *)
Theorem occurrence_in_time_by_class_sorted (df : list occurrence) :
  Forall (fun r => groupable (ocorrencia_data r) = true) df ->
  exists out,
    occurrence_in_time_by_class df = Ok out
    /\ StronglySorted entry_lt (map fst out).
Proof.
  intro G. eexists. split; [exact (by_class_groupable df G)|].
  rewrite map_map. cbn [fst].
  apply (strongly_sorted_map key_lt); [exact key_lt_entry_lt|].
  apply Sorted_StronglySorted.
  - intros a b c. apply key_lt_trans.
  - apply sorted_sort_keys, nodup_observed.
Qed.

Lemma occurrence_in_time_by_class_sorted_witness :
  exists out,
    occurrence_in_time_by_class [row_march; row_unclassified; row_january]
    = Ok out
    /\ StronglySorted entry_lt (map fst out).
Proof.
  apply (occurrence_in_time_by_class_sorted
           [row_march; row_unclassified; row_january]).
  repeat constructor.
Defined.

(** ** The summary of a column *)

Local Open Scope Q_scope.

Lemma Qle_bool_false (x y : Q) : Qle_bool x y = false -> y <= x.
Proof.
  intro H. destruct (Qlt_le_dec y x) as [L|L]; [apply Qlt_le_weak; exact L|].
  apply Qle_bool_iff in L. congruence.
Qed.

Lemma least_fold (t : list Q) :
  forall x,
    let m := fold_left (fun m y => if Qle_bool y m then y else m) t x in
    In m (x :: t) /\ forall y, In y (x :: t) -> m <= y.
Proof.
  induction t as [|a t IH]; intro x; cbn [fold_left].
  - split; [left; reflexivity|]. intros y [<-|[]]. apply Qle_refl.
  - destruct (Qle_bool a x) eqn:E.
    + destruct (IH a) as [Hin Hle]. split.
      * right. exact Hin.
      * intros y [<-|Hy]; [|exact (Hle y Hy)].
        apply Qle_trans with a; [apply Hle; left; reflexivity|].
        apply Qle_bool_iff. exact E.
    + destruct (IH x) as [Hin Hle]. split.
      * destruct Hin as [<-|Hin]; [left; reflexivity|right; right; exact Hin].
      * intros y [<-|[<-|Hy]].
        -- apply Hle. left. reflexivity.
        -- apply Qle_trans with x; [apply Hle; left; reflexivity|].
           apply Qle_bool_false. exact E.
        -- apply Hle. right. exact Hy.
Qed.

Lemma greatest_fold (t : list Q) :
  forall x,
    let m := fold_left (fun m y => if Qle_bool m y then y else m) t x in
    In m (x :: t) /\ forall y, In y (x :: t) -> y <= m.
Proof.
  induction t as [|a t IH]; intro x; cbn [fold_left].
  - split; [left; reflexivity|]. intros y [<-|[]]. apply Qle_refl.
  - destruct (Qle_bool x a) eqn:E.
    + destruct (IH a) as [Hin Hle]. split.
      * right. exact Hin.
      * intros y [<-|Hy]; [|exact (Hle y Hy)].
        apply Qle_trans with a; [|apply Hle; left; reflexivity].
        apply Qle_bool_iff. exact E.
    + destruct (IH x) as [Hin Hle]. split.
      * destruct Hin as [<-|Hin]; [left; reflexivity|right; right; exact Hin].
      * intros y [<-|[<-|Hy]].
        -- apply Hle. left. reflexivity.
        -- apply Qle_trans with x; [|apply Hle; left; reflexivity].
           apply Qle_bool_false. exact E.
        -- apply Hle. right. exact Hy.
Qed.

Lemma size_cons (x : Q) (l : list Q) : size (x :: l) == size l + 1.
Proof.
  unfold size. cbn [List.length]. rewrite Nat2Z.inj_succ, <- Z.add_1_r.
  rewrite inject_Z_plus. reflexivity.
Qed.

Lemma size_nonneg (l : list Q) : 0 <= size l.
Proof.
  unfold size. change 0 with (inject_Z 0). rewrite <- Zle_Qle. lia.
Qed.

(** X13: for every column with a defined value, the minimum and the
    maximum of the summary are values of the column, and every defined
    value lies between them. *)
Theorem describe_bounds (col : list (option Q)) :
  defined col <> [] ->
  exists lo hi,
    s_min (describe col) = Some lo
    /\ s_max (describe col) = Some hi
    /\ In lo (defined col) /\ In hi (defined col)
    /\ (forall x, In x (defined col) -> lo <= x <= hi).
Proof.
  unfold describe. cbn [s_min s_max].
  destruct (defined col) as [|x t]; [congruence|]. intros _.
  destruct (least_fold t x) as [Hlin Hl].
  destruct (greatest_fold t x) as [Hgin Hg].
  cbv zeta in Hlin, Hl, Hgin, Hg.
  do 2 eexists. cbn [least greatest].
  repeat split; try reflexivity; auto.
Qed.

Lemma describe_bounds_witness :
  exists lo hi,
    s_min (describe [Some (3 # 1); None; Some (1 # 1)]) = Some lo
    /\ s_max (describe [Some (3 # 1); None; Some (1 # 1)]) = Some hi
    /\ In lo (defined [Some (3 # 1); None; Some (1 # 1)])
    /\ In hi (defined [Some (3 # 1); None; Some (1 # 1)])
    /\ (forall x, In x (defined [Some (3 # 1); None; Some (1 # 1)]) ->
                  lo <= x <= hi).
Proof.
  apply (describe_bounds [Some (3 # 1); None; Some (1 # 1)]). discriminate.
Defined.

(** The percentiles *)

Lemma in_insert_sorted (y x : Q) (l : list Q) :
  In y (insert_sorted x l) <-> x = y \/ In y l.
Proof.
  induction l as [|a l IH]; simpl; [tauto|].
  destruct (Qle_bool x a); simpl; tauto.
Qed.

Lemma in_sort_values (y : Q) (l : list Q) :
  In y (sort_values l) <-> In y l.
Proof.
  induction l as [|a l IH]; simpl; [tauto|].
  rewrite in_insert_sorted, IH. tauto.
Qed.

Lemma length_insert_sorted (x : Q) (l : list Q) :
  List.length (insert_sorted x l) = S (List.length l).
Proof.
  induction l as [|a l IH]; simpl; [reflexivity|].
  destruct (Qle_bool x a); simpl; [|rewrite IH]; reflexivity.
Qed.

Lemma length_sort_values (l : list Q) :
  List.length (sort_values l) = List.length l.
Proof.
  induction l as [|a l IH]; simpl; [reflexivity|].
  rewrite length_insert_sorted, IH. reflexivity.
Qed.

Lemma sorted_insert_sorted (x : Q) (l : list Q) :
  StronglySorted Qle l -> StronglySorted Qle (insert_sorted x l).
Proof.
  induction 1 as [|a l Hs IH Ha]; simpl.
  - constructor; constructor.
  - destruct (Qle_bool x a) eqn:E.
    + apply Qle_bool_iff in E. constructor; [constructor; assumption|].
      constructor; [exact E|].
      rewrite Forall_forall in *. intros y Hy.
      apply Qle_trans with a; [exact E|exact (Ha y Hy)].
    + apply Qle_bool_false in E. constructor; [exact IH|].
      rewrite Forall_forall in *. intros y Hy.
      apply in_insert_sorted in Hy. destruct Hy as [<-|Hy]; auto.
Qed.

Lemma sorted_sort_values (l : list Q) : StronglySorted Qle (sort_values l).
Proof.
  induction l as [|a l IH]; simpl; [constructor|].
  apply sorted_insert_sorted. exact IH.
Qed.

Lemma sorted_nth (l : list Q) :
  StronglySorted Qle l ->
  forall i j d, (i <= j < List.length l)%nat -> nth i l d <= nth j l d.
Proof.
  induction 1 as [|a l Hs IH Ha]; intros i j d Hij; simpl in Hij; [lia|].
  destruct i as [|i], j as [|j]; simpl; try lia.
  - apply Qle_refl.
  - rewrite Forall_forall in Ha. apply Ha, nth_In. lia.
  - apply IH. lia.
Qed.

Lemma lerp_between (a b f : Q) :
  a <= b -> 0 <= f -> f <= 1 -> a <= a + (b - a) * f <= b.
Proof.
  intros Hab H0 H1.
  assert (P1 : 0 <= (b - a) * f) by (apply Qmult_le_0_compat; lra).
  assert (P2 : 0 <= (b - a) * (1 - f)) by (apply Qmult_le_0_compat; lra).
  assert (E : (b - a) * (1 - f) == (b - a) - (b - a) * f) by ring.
  rewrite E in P2. set (prod := (b - a) * f) in *. lra.
Qed.

Lemma lerp_monotone (a b f g : Q) :
  a <= b -> f <= g -> a + (b - a) * f <= a + (b - a) * g.
Proof.
  intros Hab Hfg.
  assert (P : 0 <= (b - a) * (g - f)) by (apply Qmult_le_0_compat; lra).
  assert (E : (b - a) * (g - f) == (b - a) * g - (b - a) * f) by ring.
  rewrite E in P. set (p1 := (b - a) * f) in *.
  set (p2 := (b - a) * g) in *. lra.
Qed.

Lemma quantile_interpolate (p : Q) (l : list Q) :
  quantile p l
  = match sort_values l with
    | [] => None
    | x0 :: _ => Some (interpolate (sort_values l) x0 (p * (size l - 1)))
    end.
Proof. unfold quantile. destruct (sort_values l); reflexivity. Qed.

(** The two values around a rank of a sorted list. *)
Lemma rank_value (s : list Q) (d pos : Q) :
  StronglySorted Qle s ->
  0 <= pos -> pos <= inject_Z (Z.of_nat (List.length s) - 1) ->
  let lo := Qfloor pos in
  let a := nth (Z.to_nat lo) s d in
  let b := nth (S (Z.to_nat lo)) s a in
  (0 <= lo <= Z.of_nat (List.length s) - 1)%Z
  /\ In a s /\ In b s /\ a <= b
  /\ 0 <= pos - inject_Z lo /\ pos - inject_Z lo <= 1.
Proof.
  intros Hs H0 Hn lo a b.
  assert (Hlo : (0 <= lo <= Z.of_nat (List.length s) - 1)%Z).
  { split.
    - change 0%Z with (Qfloor 0). apply Qfloor_resp_le. exact H0.
    - rewrite <- (Qfloor_Z (Z.of_nat (List.length s) - 1)).
      apply Qfloor_resp_le. exact Hn. }
  assert (Hlen : (Z.to_nat lo < List.length s)%nat) by lia.
  assert (Ha : In a s) by (apply nth_In; exact Hlen).
  assert (Hb : In b s /\ a <= b).
  { subst b. destruct (Nat.lt_ge_cases (S (Z.to_nat lo)) (List.length s))
      as [L|G].
    - split; [apply nth_In; exact L|].
      rewrite (nth_indep s a d L). apply sorted_nth; [exact Hs|lia].
    - rewrite nth_overflow by exact G. split; [exact Ha|apply Qle_refl]. }
  pose proof (Qfloor_le pos) as F1. pose proof (Qlt_floor pos) as F2.
  fold lo in F1, F2. rewrite inject_Z_plus in F2.
  change (inject_Z 1) with 1 in F2.
  repeat split; try tauto; try lia; lra.
Qed.

Lemma interpolate_between (s : list Q) (d pos : Q) :
  StronglySorted Qle s ->
  0 <= pos -> pos <= inject_Z (Z.of_nat (List.length s) - 1) ->
  exists a b, In a s /\ In b s /\ a <= interpolate s d pos <= b.
Proof.
  intros Hs H0 Hn.
  destruct (rank_value s d pos Hs H0 Hn) as (_ & Ha & Hb & Hab & F0 & F1).
  cbv zeta in *. eexists. eexists. split; [exact Ha|]. split; [exact Hb|].
  unfold interpolate. apply lerp_between; assumption.
Qed.

Lemma interpolate_monotone (s : list Q) (d pos pos' : Q) :
  StronglySorted Qle s ->
  0 <= pos -> pos <= pos' ->
  pos' <= inject_Z (Z.of_nat (List.length s) - 1) ->
  interpolate s d pos <= interpolate s d pos'.
Proof.
  intros Hs H0 Hpp Hn.
  assert (H0' : 0 <= pos') by lra.
  assert (Hn' : pos <= inject_Z (Z.of_nat (List.length s) - 1)) by lra.
  destruct (rank_value s d pos Hs H0 Hn') as (Hlo & Ha & Hb & Hab & F0 & F1).
  destruct (rank_value s d pos' Hs H0' Hn)
    as (Hlo' & Ha' & Hb' & Hab' & F0' & F1').
  cbv zeta in *.
  pose proof (Qfloor_resp_le _ _ Hpp) as Hfl.
  unfold interpolate.
  destruct (Z.eq_dec (Qfloor pos) (Qfloor pos')) as [Eq|Ne].
  - rewrite <- Eq. rewrite <- Eq in F0'.
    apply lerp_monotone; [exact Hab|lra].
  - set (a := nth (Z.to_nat (Qfloor pos)) s d) in *.
    set (b := nth (S (Z.to_nat (Qfloor pos))) s a) in *.
    set (a' := nth (Z.to_nat (Qfloor pos')) s d) in *.
    set (b' := nth (S (Z.to_nat (Qfloor pos'))) s a') in *.
    assert (Hba : b <= a').
    { subst b a'.
      assert (L : (S (Z.to_nat (Qfloor pos)) < List.length s)%nat) by lia.
      rewrite (nth_indep s a d L). apply sorted_nth; [exact Hs|lia]. }
    destruct (lerp_between a b (pos - inject_Z (Qfloor pos)) Hab F0 F1)
      as [_ U].
    destruct (lerp_between a' b' (pos' - inject_Z (Qfloor pos')) Hab' F0' F1')
      as [L _].
    apply Qle_trans with b; [exact U|].
    apply Qle_trans with a'; [exact Hba|exact L].
Qed.

Lemma quantile_rank (p : Q) (l : list Q) :
  l <> [] -> 0 <= p -> p <= 1 ->
  0 <= p * (size l - 1)
  /\ p * (size l - 1)
     <= inject_Z (Z.of_nat (List.length (sort_values l)) - 1).
Proof.
  intros Hne H0 H1. rewrite length_sort_values.
  assert (E : size l - 1 == inject_Z (Z.of_nat (List.length l) - 1)).
  { unfold size, Z.sub. rewrite inject_Z_plus. reflexivity. }
  rewrite E.
  assert (Hn : 0 <= inject_Z (Z.of_nat (List.length l) - 1)).
  { change 0 with (inject_Z 0). rewrite <- Zle_Qle.
    destruct l; [congruence|]. simpl List.length. lia. }
  set (n1 := inject_Z (Z.of_nat (List.length l) - 1)) in *.
  split.
  - apply Qmult_le_0_compat; assumption.
  - assert (P : 0 <= (1 - p) * n1) by (apply Qmult_le_0_compat; lra).
    assert (E' : (1 - p) * n1 == n1 - p * n1) by ring.
    rewrite E' in P. set (pn := p * n1) in *. lra.
Qed.

Lemma sort_values_nonempty (l : list Q) : l <> [] -> sort_values l <> [].
Proof.
  intros Hne E. apply (f_equal (@List.length Q)) in E.
  rewrite length_sort_values in E. destruct l; [congruence|discriminate].
Qed.

(** A percentile lies between two values of the column. *)
Lemma quantile_between (p : Q) (l : list Q) :
  l <> [] -> 0 <= p -> p <= 1 ->
  exists q a b, quantile p l = Some q /\ In a l /\ In b l /\ a <= q <= b.
Proof.
  intros Hne H0 H1. rewrite quantile_interpolate.
  pose proof (sort_values_nonempty l Hne) as Hs.
  destruct (sort_values l) as [|y s] eqn:E; [congruence|]. rewrite <- E.
  destruct (quantile_rank p l Hne H0 H1) as [P0 Pn].
  destruct (interpolate_between (sort_values l) y _ (sorted_sort_values l) P0 Pn)
    as (a & b & Ha & Hb & Hq).
  exists (interpolate (sort_values l) y (p * (size l - 1))), a, b.
  split; [reflexivity|].
  split; [apply in_sort_values; exact Ha|].
  split; [apply in_sort_values; exact Hb|exact Hq].
Qed.

(** A higher percentile is not below a lower one. *)
Lemma quantile_monotone (p p' : Q) (l : list Q) (q q' : Q) :
  0 <= p -> p <= p' -> p' <= 1 ->
  quantile p l = Some q -> quantile p' l = Some q' -> q <= q'.
Proof.
  intros H0 Hpp H1. rewrite !quantile_interpolate.
  destruct (sort_values l) as [|y s] eqn:E; [discriminate|]. rewrite <- E.
  intros Hq Hq'. injection Hq as <-. injection Hq' as <-.
  assert (Hne : l <> []) by (intros ->; discriminate).
  destruct (quantile_rank p l Hne H0 ltac:(lra)) as [P0 _].
  destruct (quantile_rank p' l Hne ltac:(lra) H1) as [_ Pn'].
  apply interpolate_monotone; try assumption; [apply sorted_sort_values|].
  assert (Hn : 0 <= size l - 1).
  { destruct l as [|x t]; [congruence|].
    rewrite size_cons. pose proof (size_nonneg t). lra. }
  assert (P : 0 <= (p' - p) * (size l - 1))
    by (apply Qmult_le_0_compat; lra).
  assert (E' : (p' - p) * (size l - 1)
               == p' * (size l - 1) - p * (size l - 1)) by ring.
  rewrite E' in P. lra.
Qed.

(** X15: for every column with a defined value, the three percentiles
    of the summary are in order and lie between the minimum and the
    maximum. *)
Theorem describe_percentiles_ordered (col : list (option Q)) :
  defined col <> [] ->
  exists lo q1 q2 q3 hi,
    s_min (describe col) = Some lo
    /\ s_q25 (describe col) = Some q1
    /\ s_q50 (describe col) = Some q2
    /\ s_q75 (describe col) = Some q3
    /\ s_max (describe col) = Some hi
    /\ lo <= q1 /\ q1 <= q2 /\ q2 <= q3 /\ q3 <= hi.
Proof.
  intro Hne. unfold describe. cbn [s_min s_q25 s_q50 s_q75 s_max].
  set (l := defined col) in *.
  destruct (quantile_between (1 # 4) l Hne) as (q1 & a1 & _ & E1 & Ha1 & _ & L1 & _);
    [lra|lra|].
  destruct (quantile_between (1 # 2) l Hne) as (q2 & _ & _ & E2 & _); [lra|lra|].
  destruct (quantile_between (3 # 4) l Hne) as (q3 & _ & b3 & E3 & _ & Hb3 & _ & U3);
    [lra|lra|].
  destruct l as [|x t] eqn:El; [congruence|].
  destruct (least_fold t x) as [_ Hl]. destruct (greatest_fold t x) as [_ Hg].
  cbv zeta in Hl, Hg.
  exists (fold_left (fun m y => if Qle_bool y m then y else m) t x), q1, q2, q3,
    (fold_left (fun m y => if Qle_bool m y then y else m) t x).
  cbn [least greatest]. repeat split; auto.
  - apply Qle_trans with a1; [apply Hl; exact Ha1|exact L1].
  - apply (quantile_monotone (1 # 4) (1 # 2) (x :: t)); auto; lra.
  - apply (quantile_monotone (1 # 2) (3 # 4) (x :: t)); auto; lra.
  - apply Qle_trans with b3; [exact U3|apply Hg; exact Hb3].
Qed.

Lemma describe_percentiles_ordered_witness :
  exists lo q1 q2 q3 hi,
    s_min (describe [Some (3 # 1); None; Some (1 # 1)]) = Some lo
    /\ s_q25 (describe [Some (3 # 1); None; Some (1 # 1)]) = Some q1
    /\ s_q50 (describe [Some (3 # 1); None; Some (1 # 1)]) = Some q2
    /\ s_q75 (describe [Some (3 # 1); None; Some (1 # 1)]) = Some q3
    /\ s_max (describe [Some (3 # 1); None; Some (1 # 1)]) = Some hi
    /\ lo <= q1 /\ q1 <= q2 /\ q2 <= q3 /\ q3 <= hi.
Proof.
  apply (describe_percentiles_ordered [Some (3 # 1); None; Some (1 # 1)]).
  discriminate.
Defined.

Local Close Scope Q_scope.

(** ** Positional slices *)

(** The positions from the end of [p ++ t] down to the start of [t]
    give [t] backwards. *)
Lemma slice_down {A : Type} (p t : list A) :
  forall rest,
    flat_map (item (p ++ t ++ rest))
             (range_from (List.length t)
                         (Z.of_nat (List.length p + List.length t) - 1)
                         (Z.of_nat (List.length p) - 1) (-1))
    = rev t.
Proof.
  induction t as [|x t IH] using rev_ind; intro rest; [reflexivity|].
  rewrite length_app, Nat.add_1_r, rev_app_distr. cbn [range_from rev app].
  assert (L : (Z.of_nat (List.length p) - 1
               <? Z.of_nat (List.length p + S (List.length t)) - 1) = true)
    by (apply Z.ltb_lt; lia).
  change (-1 <? 0) with true. cbv iota. rewrite L. cbn [flat_map].
  assert (E : item (p ++ (t ++ [x]) ++ rest)
                   (Z.of_nat (List.length p + S (List.length t)) - 1)
              = [x]).
  { unfold item.
    replace (Z.to_nat (Z.of_nat (List.length p + S (List.length t)) - 1))
      with (List.length p + List.length t)%nat by lia.
    rewrite nth_error_app2 by lia. rewrite <- app_assoc.
    rewrite nth_error_app2 by lia.
    replace (List.length p + List.length t - List.length p
             - List.length t)%nat with O by lia.
    reflexivity. }
  rewrite E. cbn [app]. f_equal.
  specialize (IH (x :: rest)).
  rewrite <- app_assoc. cbn [app].
  replace (Z.of_nat (List.length p + S (List.length t)) - 1 + -1)
    with (Z.of_nat (List.length p + List.length t) - 1) by lia.
  exact IH.
Qed.

(** The positions from the start of [p] up to its end give [p]. *)
Lemma slice_up {A : Type} (p : list A) :
  forall done rest,
    flat_map (item (done ++ p ++ rest))
             (range_from (List.length p)
                         (Z.of_nat (List.length done))
                         (Z.of_nat (List.length done + List.length p)) 1)
    = p.
Proof.
  induction p as [|x p IH]; intros done rest; [reflexivity|].
  cbn [List.length range_from].
  assert (L : (Z.of_nat (List.length done)
               <? Z.of_nat (List.length done + S (List.length p))) = true)
    by (apply Z.ltb_lt; lia).
  change (1 <? 0) with false. cbv iota. rewrite L. cbn [flat_map].
  assert (E : item (done ++ (x :: p) ++ rest) (Z.of_nat (List.length done))
              = [x]).
  { unfold item. rewrite Nat2Z.id, nth_error_app2 by lia.
    rewrite Nat.sub_diag. reflexivity. }
  rewrite E. cbn [app]. f_equal.
  specialize (IH (done ++ [x])%list rest).
  rewrite length_app, <- app_assoc in IH. cbn [List.length app] in IH.
  replace (Z.of_nat (List.length done + 1))
    with (Z.of_nat (List.length done) + 1) in IH by lia.
  replace (Z.of_nat (List.length done + 1 + List.length p))
    with (Z.of_nat (List.length done + S (List.length p))) in IH by lia.
  exact IH.
Qed.

(** A slice that runs backwards from the end, [s.iloc[:k:-1]] with
    [k] not negative, gives the entries after position [k] in reverse
    order, so it leaves out the first [k + 1] entries; [s.iloc[::-1]]
    gives all entries in reverse order. *)
Lemma iloc_backwards {A : Type} (l : list A) :
  iloc l None None (-1) = Ok (rev l)
  /\ forall k : nat,
       iloc l None (Some (Z.of_nat k)) (-1) = Ok (rev (skipn (S k) l)).
Proof.
  split.
  - unfold iloc, indices, range. cbn [Z.eqb Z.ltb Z.compare].
    f_equal. pose proof (slice_down [] l []) as H.
    rewrite app_nil_r in H. cbn [app List.length Nat.add Z.of_nat] in H.
    replace (Z.to_nat (Z.abs (-1 - (Z.of_nat (List.length l) - 1))))
      with (List.length l) by lia.
    exact H.
  - intro k. unfold iloc, indices, range, adjust.
    cbn [Z.eqb Z.ltb Z.compare].
    assert (K : (Z.of_nat k <? 0) = false) by (apply Z.ltb_ge; lia).
    rewrite K. f_equal.
    destruct (Nat.lt_ge_cases (S k) (List.length l)) as [Hlt|Hge].
    + rewrite Z.min_l by lia.
      pose proof (slice_down (firstn (S k) l) (skipn (S k) l) []) as H.
      rewrite app_nil_r, firstn_skipn in H.
      rewrite length_firstn, length_skipn in H.
      rewrite Nat.min_l in H by lia.
      replace (Z.to_nat (Z.abs (Z.of_nat k - (Z.of_nat (List.length l) - 1))))
        with (List.length l - S k)%nat by lia.
      replace (Z.of_nat (S k + (List.length l - S k)) - 1)
        with (Z.of_nat (List.length l) - 1) in H by lia.
      replace (Z.of_nat (S k) - 1) with (Z.of_nat k) in H by lia.
      exact H.
    + rewrite skipn_all2 by lia. rewrite Z.min_r by lia.
      rewrite Z.sub_diag. reflexivity.
Qed.

(** [s.head(n)] gives the first [n] entries, all of them when [n]
    is the number of entries or more; for a negative [n] it leaves out
    the last [-n] entries. *)
Lemma head_first {A : Type} (n : Z) (l : list A) :
  head n l
  = Ok (firstn (Z.to_nat (if n <? 0
                          then n + Z.of_nat (List.length l)
                          else n)) l).
Proof.
  unfold head, iloc, indices, range, adjust. cbn [Z.eqb Z.ltb Z.compare].
  rewrite Z.sub_0_r. f_equal.
  set (len := Z.of_nat (List.length l)).
  set (stop := if n <? 0 then Z.max (n + len) 0 else Z.min n len).
  assert (Hstop : 0 <= stop <= len)
    by (subst stop len; destruct (n <? 0) eqn:E;
        [apply Z.ltb_lt in E|apply Z.ltb_ge in E]; lia).
  assert (Hfirst : firstn (Z.to_nat (if n <? 0 then n + len else n)) l
                   = firstn (Z.to_nat stop) l).
  { subst stop. destruct (n <? 0) eqn:E.
    - f_equal. lia.
    - apply Z.ltb_ge in E.
      destruct (Z.le_gt_cases n len) as [L|G].
      + rewrite Z.min_l by lia. reflexivity.
      + rewrite Z.min_r by lia. subst len.
        rewrite !firstn_all2 by lia. reflexivity. }
  rewrite Hfirst.
  pose proof (slice_up (firstn (Z.to_nat stop) l) []
                (skipn (Z.to_nat stop) l)) as H.
  cbn [app List.length Nat.add] in H. rewrite firstn_skipn in H.
  rewrite length_firstn, Nat.min_l in H by (subst len; lia).
  rewrite Z2Nat.id in H by lia. rewrite Z.abs_eq by lia.
  change (Z.of_nat 0) with 0 in H. exact H.
Qed.

(** ** Frequency tables *)

Lemma in_dropna {A : Type} (x : A) (col : list (option A)) :
  In x (dropna col) <-> In (Some x) col.
Proof.
  unfold dropna. rewrite in_flat_map. split.
  - intros ([y|] & Hin & Hx); simpl in Hx; [|contradiction].
    destruct Hx as [<-|[]]. exact Hin.
  - intro H. exists (Some x). split; [exact H|left; reflexivity].
Qed.

Lemma sum_counts_permutation (l l' : list nat) :
  Permutation l l' -> sum_counts l = sum_counts l'.
Proof.
  unfold sum_counts. induction 1; simpl; lia.
Qed.

Lemma permutation_insert_count {A : Type} (e : A * nat) (l : list (A * nat)) :
  Permutation (insert_count e l) (e :: l).
Proof.
  induction l as [|e' l IH]; simpl; [reflexivity|].
  destruct (snd e' <=? snd e)%nat; [reflexivity|].
  rewrite IH. apply perm_swap.
Qed.

Lemma permutation_sort_stable {A : Type} (l : list (A * nat)) :
  Permutation (sort_stable l) l.
Proof.
  induction l as [|e l IH]; simpl; [reflexivity|].
  rewrite permutation_insert_count, IH. reflexivity.
Qed.

Lemma sorted_insert_count {A : Type} (e : A * nat) (l : list (A * nat)) :
  Sorted count_ge l -> Sorted count_ge (insert_count e l).
Proof.
  induction l as [|e' l IH]; simpl; intro Hs.
  - constructor; constructor.
  - destruct (snd e' <=? snd e)%nat eqn:E.
    + apply Nat.leb_le in E. constructor; [exact Hs|constructor; exact E].
    + apply Nat.leb_gt in E. inversion Hs as [|? ? Hs' Hd]; subst.
      constructor; [apply IH; exact Hs'|].
      destruct l as [|e'' l]; simpl.
      * constructor. unfold count_ge. lia.
      * destruct (snd e'' <=? snd e)%nat; constructor.
        -- unfold count_ge. lia.
        -- inversion Hd; assumption.
Qed.

Lemma sorted_sort_stable {A : Type} (l : list (A * nat)) :
  Sorted count_ge (sort_stable l).
Proof.
  induction l as [|e l IH]; simpl; [constructor|].
  apply sorted_insert_count. exact IH.
Qed.

Section ValueCounts.

Variable A : Type.
Variable eqb : A -> A -> bool.
Variable sort : list (A * nat) -> list (A * nat).

Hypothesis eqb_eq : forall x y, eqb x y = true <-> x = y.
Hypothesis sort_permutes : forall l, Permutation (sort l) l.
Hypothesis sort_descends : forall l, Sorted count_ge (sort l).

Lemma in_distinct (x : A) (l : list A) : In x (distinct eqb l) <-> In x l.
Proof.
  induction l as [|a l IH]; simpl; [tauto|].
  rewrite filter_In, IH.
  destruct (eqb a x) eqn:E.
  - apply eqb_eq in E. subst a. tauto.
  - simpl. tauto.
Qed.

Lemma nodup_distinct (l : list A) : NoDup (distinct eqb l).
Proof.
  induction l as [|a l IH]; simpl; constructor.
  - rewrite filter_In. intros [_ H].
    assert (E : eqb a a = true) by (apply eqb_eq; reflexivity).
    rewrite E in H. discriminate.
  - apply NoDup_filter. exact IH.
Qed.

Lemma occurrences_partition (keys l : list A) :
  NoDup keys ->
  sum_counts (map (fun x => occurrences eqb x l) keys)
  = List.length (filter (fun y => existsb (fun x => eqb x y) keys) l).
Proof.
  unfold occurrences. induction 1 as [|a keys Ha Hk IH]; simpl.
  - rewrite filter_false. reflexivity.
  - rewrite IH. symmetry. apply length_filter_or.
    intros y _ Ey. apply eqb_eq in Ey. subst a.
    destruct (existsb _ keys) eqn:E; [|reflexivity].
    apply existsb_exists in E. destruct E as (k & Hin & Ek).
    apply eqb_eq in Ek. subst k. contradiction.
Qed.

(** X16: the frequency table of a column has exactly one entry for each
    value that some cell holds, with the number of cells that hold it;
    missing cells have no entry. *)
Theorem value_counts_entries (col : list (option A)) :
  (forall v n, In (v, n) (value_counts eqb sort col)
               <-> In (Some v) col
                   /\ n = occurrences eqb v (dropna col))
  /\ NoDup (map fst (value_counts eqb sort col)).
Proof.
  unfold value_counts. split.
  - intros v n. split.
    + intro H. apply (Permutation_in _ (sort_permutes _)) in H.
      apply in_map_iff in H. destruct H as (x & E & Hx).
      injection E as <- <-. split; [|reflexivity].
      apply in_dropna, in_distinct. exact Hx.
    + intros [Hv ->].
      apply (Permutation_in _ (Permutation_sym (sort_permutes _))).
      apply in_map_iff. exists v. split; [reflexivity|].
      apply in_distinct, in_dropna. exact Hv.
  - apply (Permutation_NoDup (l := distinct eqb (dropna col))).
    + rewrite (sort_permutes _), map_map. cbn [fst]. rewrite map_id.
      reflexivity.
    + apply nodup_distinct.
Qed.

(** X17: the counts of a frequency table add up to the number of cells
    that are not missing. *)
Theorem value_counts_total (col : list (option A)) :
  sum_counts (map snd (value_counts eqb sort col))
  = List.length (dropna col).
Proof.
  unfold value_counts.
  rewrite (sum_counts_permutation _ _
             (Permutation_map snd (sort_permutes _))).
  rewrite map_map. cbn [snd].
  rewrite occurrences_partition by apply nodup_distinct.
  f_equal. apply filter_all. intros y Hy.
  apply existsb_exists. exists y. split; [apply in_distinct; exact Hy|].
  apply eqb_eq. reflexivity.
Qed.

Lemma first_is_greatest (e : A * nat) (rest : list (A * nat)) :
  Sorted count_ge (e :: rest) -> Forall (fun e' => (snd e' <= snd e)%nat) rest.
Proof.
  intro H. apply Sorted_StronglySorted in H.
  - inversion H; assumption.
  - intros a b c Hab Hbc. unfold count_ge in *. lia.
Qed.

End ValueCounts.

Lemma value_counts_entries_witness :
  (forall v n,
      In (v, n) (value_counts String.eqb sort_stable
                   [Some "AVIAO"; None; Some "AVIAO"]%string)
      <-> In (Some v) [Some "AVIAO"; None; Some "AVIAO"]%string
          /\ n = occurrences String.eqb v
                   (dropna [Some "AVIAO"; None; Some "AVIAO"]%string))
  /\ NoDup (map fst (value_counts String.eqb sort_stable
                       [Some "AVIAO"; None; Some "AVIAO"]%string)).
Proof.
  apply (value_counts_entries string String.eqb sort_stable String.eqb_eq
           (@permutation_sort_stable string)).
Defined.

Lemma value_counts_total_witness :
  sum_counts (map snd (value_counts String.eqb sort_stable
                         [Some "AVIAO"; None; Some "AVIAO"]%string))
  = List.length (dropna [Some "AVIAO"; None; Some "AVIAO"]%string).
Proof.
  apply (value_counts_total string String.eqb sort_stable String.eqb_eq
           (@permutation_sort_stable string)).
Defined.

(** ** What the charts of the aircraft table are given *)

(** X18: the chart of operator types is given every entry of the
    frequency table but the first, in reverse order; the entry left out
    has a count that is not below any count shown. *)
Theorem aircraft_operator_type_chart_rest
  (sort : list (string * nat) -> list (string * nat)) (df : list aircraft) :
  (forall l, Sorted count_ge (sort l)) ->
  match aircraft_operator_type sort df with
  | [] => aircraft_operator_type_chart sort df = Ok []
  | e :: rest =>
      aircraft_operator_type_chart sort df = Ok (rev rest)
      /\ Forall (fun e' => (snd e' <= snd e)%nat) rest
  end.
Proof.
  intro Hs. unfold aircraft_operator_type_chart.
  pose proof (proj2 (iloc_backwards (aircraft_operator_type sort df)) O) as Hi.
  cbn [Z.of_nat] in Hi. rewrite Hi. clear Hi.
  pose proof (Hs (map (fun x =>
                         (x, occurrences String.eqb x
                               (dropna (map aeronave_operador_categoria df))))
                      (distinct String.eqb
                         (dropna (map aeronave_operador_categoria df)))))
    as Hd.
  fold (value_counts String.eqb sort (map aeronave_operador_categoria df))
    in Hd.
  fold (aircraft_operator_type sort df) in Hd.
  destruct (aircraft_operator_type sort df) as [|e rest]; [reflexivity|].
  split; [reflexivity|]. exact (first_is_greatest _ e rest Hd).
Qed.

Lemma aircraft_operator_type_chart_rest_witness :
  match aircraft_operator_type sort_stable
          [mk_aircraft (Some "REGULAR"%string) (CFloat NaN) (CFloat NaN)
             None None None None None;
           mk_aircraft (Some "TAXI"%string) (CFloat NaN) (CFloat NaN)
             None None None None None;
           mk_aircraft (Some "REGULAR"%string) (CFloat NaN) (CFloat NaN)
             None None None None None]
  with
  | [] =>
      aircraft_operator_type_chart sort_stable
        [mk_aircraft (Some "REGULAR"%string) (CFloat NaN) (CFloat NaN)
           None None None None None;
         mk_aircraft (Some "TAXI"%string) (CFloat NaN) (CFloat NaN)
           None None None None None;
         mk_aircraft (Some "REGULAR"%string) (CFloat NaN) (CFloat NaN)
           None None None None None]
      = Ok []
  | e :: rest =>
      aircraft_operator_type_chart sort_stable
        [mk_aircraft (Some "REGULAR"%string) (CFloat NaN) (CFloat NaN)
           None None None None None;
         mk_aircraft (Some "TAXI"%string) (CFloat NaN) (CFloat NaN)
           None None None None None;
         mk_aircraft (Some "REGULAR"%string) (CFloat NaN) (CFloat NaN)
           None None None None None]
      = Ok (rev rest)
      /\ Forall (fun e' => (snd e' <= snd e)%nat) rest
  end.
Proof.
  apply (aircraft_operator_type_chart_rest sort_stable
           [mk_aircraft (Some "REGULAR"%string) (CFloat NaN) (CFloat NaN)
              None None None None None;
            mk_aircraft (Some "TAXI"%string) (CFloat NaN) (CFloat NaN)
              None None None None None;
            mk_aircraft (Some "REGULAR"%string) (CFloat NaN) (CFloat NaN)
              None None None None None]
           (@sorted_sort_stable string)).
Defined.

(** X19: the chart of the airdromes of origin is given the third to the
    twelfth entry of the frequency table, in reverse order: ten bars at
    most, the two most frequent origins left out. *)
Theorem origin_airdromes_chart_bars
  (sort : list (string * nat) -> list (string * nat)) (df : list aircraft) :
  origin_airdromes_chart sort df
  = Ok (rev (skipn 2 (firstn 12
                        (value_counts String.eqb sort
                           (map aeronave_voo_origem df)))))
  /\ exists bars, origin_airdromes_chart sort df = Ok bars
                  /\ (List.length bars <= 10)%nat.
Proof.
  assert (E : origin_airdromes_chart sort df
              = Ok (rev (skipn 2 (firstn 12
                                    (value_counts String.eqb sort
                                       (map aeronave_voo_origem df)))))).
  { unfold origin_airdromes_chart, most_common_origin_airdromes.
    rewrite head_first. cbn [bind].
    exact (proj2 (iloc_backwards _) 1%nat). }
  split; [exact E|]. eexists. split; [exact E|].
  rewrite length_rev, length_skipn, length_firstn. lia.
Qed.

(** X20: the list of the ten most common makes and models is the first
    ten entries of the frequency table of the labels, all entries when
    there are ten or fewer, and the label of a row is its maker, a
    blank and its model; the list cannot be built, with a [TypeError],
    exactly when the maker or the model of some row is not text (an
    empty field, or a number). *)
Theorem most_common_aircraft_make_models_rows
  (sort : list (string * nat) -> list (string * nat)) (df : list aircraft) :
  match make_models df with
  | Ok labels =>
      Forall2 (fun r label =>
                 exists maker model,
                   aeronave_fabricante r = CStr maker
                   /\ aeronave_modelo r = CStr model
                   /\ label = (maker ++ " " ++ model)%string)
              df labels
      /\ most_common_aircraft_make_models sort df
         = Ok (firstn 10 (value_counts String.eqb sort (map Some labels)))
  | Raise e =>
      e = TypeError
      /\ Exists (fun r => is_text (aeronave_fabricante r) = false
                          \/ is_text (aeronave_modelo r) = false) df
      /\ most_common_aircraft_make_models sort df = Raise TypeError
  end.
Proof.
  unfold most_common_aircraft_make_models.
  induction df as [|r df IH]; cbn [make_models].
  - split; [constructor|]. cbn [bind]. apply head_first.
  - unfold make_model.
    destruct (aeronave_fabricante r) as [f|maker|n|b] eqn:Ef;
      try (cbn [bind]; repeat split; apply Exists_cons_hd; left;
           rewrite Ef; reflexivity).
    destruct (aeronave_modelo r) as [f|model|n|b] eqn:Em;
      try (cbn [bind]; repeat split; apply Exists_cons_hd; right;
           rewrite Em; reflexivity).
    cbn [bind].
    destruct (make_models df) as [labels|e]; cbn [bind] in *.
    + destruct IH as [IH1 IH2]. split; [|apply head_first].
      constructor; [|exact IH1]. exists maker, model. auto.
    + destruct IH as (-> & IH1 & _). repeat split.
      apply Exists_cons_tl. exact IH1.
Qed.

(** A column of models read as numbers: no cell is missing, and the
    labels cannot be built. *)
Example make_model_number :
  make_model (mk_aircraft None (CStr "EMBRAER") (CInt 110) None None None
                None None)
  = Raise TypeError.
Proof. reflexivity. Qed.

Lemma append_cancel (a x y : string) : (a ++ x = a ++ y)%string -> x = y.
Proof.
  induction a as [|c a IH]; simpl; intro H; [exact H|].
  injection H as H. exact (IH H).
Qed.

Lemma before_first_join (a b : string) :
  lacks " " a = true -> before_first " " (a ++ " " ++ b) = a.
Proof.
  induction a as [|c a IH]; [reflexivity|].
  cbn [append before_first lacks].
  intro H. apply andb_true_iff in H. destruct H as [H1 H2].
  apply negb_true_iff in H1. rewrite H1. f_equal. exact (IH H2).
Qed.

(** X21: two rows whose makers hold no blank get the same label only
    when they have the same maker and the same model. *)
Theorem make_model_label (r1 r2 : aircraft) (label maker1 maker2 : string) :
  aeronave_fabricante r1 = CStr maker1 ->
  aeronave_fabricante r2 = CStr maker2 ->
  lacks " " maker1 = true -> lacks " " maker2 = true ->
  make_model r1 = Ok label -> make_model r2 = Ok label ->
  aeronave_fabricante r1 = aeronave_fabricante r2
  /\ aeronave_modelo r1 = aeronave_modelo r2.
Proof.
  intros F1 F2 L1 L2. unfold make_model. rewrite F1, F2.
  destruct (aeronave_modelo r1) as [|m1| |]; try discriminate.
  destruct (aeronave_modelo r2) as [|m2| |]; try discriminate.
  intros H1 H2. injection H1 as H1. injection H2 as H2.
  cbn [join] in H1, H2.
  assert (E1 := before_first_join maker1 m1 L1).
  assert (E2 := before_first_join maker2 m2 L2).
  cbn [append] in E1, E2, H1, H2.
  rewrite H1 in E1. rewrite H2 in E2.
  assert (E : maker1 = maker2) by congruence.
  split; [congruence|].
  rewrite <- E in H2. rewrite <- H2 in H1. apply append_cancel in H1.
  injection H1 as ->. reflexivity.
Qed.

Lemma make_model_label_witness :
  aeronave_fabricante
    (mk_aircraft None (CStr "EMBRAER") (CStr "EMB-110") None None None None
       None)
  = aeronave_fabricante
      (mk_aircraft (Some "TAXI") (CStr "EMBRAER") (CStr "EMB-110") None None
         None None None)
  /\ aeronave_modelo
       (mk_aircraft None (CStr "EMBRAER") (CStr "EMB-110") None None None None
          None)
     = aeronave_modelo
         (mk_aircraft (Some "TAXI") (CStr "EMBRAER") (CStr "EMB-110") None
            None None None None).
Proof.
  apply (make_model_label _ _ "EMBRAER EMB-110" "EMBRAER" "EMBRAER");
    reflexivity.
Defined.

(** Without that condition the label does not tell the rows apart. *)
Example make_model_collision :
  make_model (mk_aircraft None (CStr "PIPER AIRCRAFT") (CStr "PA-28") None
                None None None None)
  = make_model (mk_aircraft None (CStr "PIPER") (CStr "AIRCRAFT PA-28") None
                  None None None None).
Proof. reflexivity. Qed.

(** ** Selections of the aircraft and factor tables *)

Lemma Qlt_bool_lt (x y : Q) : Qlt_bool x y = true -> (x < y)%Q.
Proof.
  unfold Qlt_bool. intro H. apply negb_true_iff in H.
  apply Qnot_le_lt. intro L. apply Qle_bool_iff in L. congruence.
Qed.

Lemma valid_year_in (df : list aircraft) (c : option Q) :
  In c (valid_year_of_fabrication df) ->
  exists y, c = Some y /\ (0 < y)%Q /\ (y < 2100 # 1)%Q.
Proof.
  unfold valid_year_of_fabrication. intro H.
  apply in_map_iff in H. destruct H as (r & <- & Hr).
  apply filter_In in Hr. destruct Hr as [_ Hp].
  apply andb_true_iff in Hp. destruct Hp as [Hg Hl].
  destruct (aeronave_ano_fabricacao r) as [y|]; [|discriminate].
  exists y. split; [reflexivity|].
  split; apply Qlt_bool_lt; assumption.
Qed.

(** X22: every year kept as a valid year of fabrication is defined and
    strictly between 0 and 2100, so the minimum and the maximum that the
    summary of the valid years reports are too; when no year is kept
    the summary counts 0 values. *)
Theorem valid_year_of_fabrication_bounds (df : list aircraft) :
  Forall (fun c => exists y, c = Some y /\ (0 < y)%Q /\ (y < 2100 # 1)%Q)
         (valid_year_of_fabrication df)
  /\ match s_min (describe (valid_year_of_fabrication df)),
           s_max (describe (valid_year_of_fabrication df)) with
     | Some lo, Some hi => (0 < lo)%Q /\ (hi < 2100 # 1)%Q
     | None, None => s_count (describe (valid_year_of_fabrication df)) = O
     | _, _ => False
     end.
Proof.
  split; [apply Forall_forall; apply valid_year_in|].
  assert (Hin : forall y, In y (defined (valid_year_of_fabrication df)) ->
                          (0 < y)%Q /\ (y < 2100 # 1)%Q).
  { intros y Hy. unfold defined in Hy. apply in_flat_map in Hy.
    destruct Hy as (c & Hc & Hy).
    destruct (valid_year_in df c Hc) as (y' & -> & B).
    destruct Hy as [<-|[]]. exact B. }
  unfold describe. cbn [s_min s_max s_count].
  destruct (defined (valid_year_of_fabrication df)) as [|x t];
    [reflexivity|].
  cbn [least greatest].
  destruct (least_fold t x) as [Hl _]. destruct (greatest_fold t x) as [Hg _].
  cbv zeta in Hl, Hg. split; [apply (Hin _ Hl)|apply (Hin _ Hg)].
Qed.

Lemma destroyed_not_excluded (c : text) :
  text_eq c DESTRUIDA = true -> isin c ["NENHUM"; "LEVE"] = false.
Proof.
  destruct c as [t|]; simpl; [|discriminate].
  intro H. apply String.eqb_eq in H. subst t. reflexivity.
Qed.

(** X23: the three selections by damage are nested: the rows without
    'NENHUM' and 'LEVE' are the rows that differ from 'NENHUM' with the
    'LEVE' ones taken out, and the destroyed aircraft are among them; a
    row whose damage level is missing, wherever it stands in the table,
    is kept in its place by the first two selections and left out of
    the third. *)
Theorem damage_selections (df : list aircraft) :
  substantial_damage_or_more df
  = map aeronave_fatalidades_total
      (filter (fun r => text_ne (aeronave_nivel_dano r) "LEVE")
              (filter (fun r => text_ne (aeronave_nivel_dano r) "NENHUM") df))
  /\ fatalities_aircraft_destroyed df
     = map aeronave_fatalidades_total
         (filter (fun r => text_eq (aeronave_nivel_dano r) DESTRUIDA)
                 (filter (fun r => negb (isin (aeronave_nivel_dano r)
                                           ["NENHUM"; "LEVE"])) df))
  /\ (forall before r rest,
        df = (before ++ r :: rest)%list ->
        aeronave_nivel_dano r = None ->
        fatalities_with_damage df
        = (fatalities_with_damage before
           ++ aeronave_fatalidades_total r :: fatalities_with_damage rest)%list
        /\ substantial_damage_or_more df
           = (substantial_damage_or_more before
              ++ aeronave_fatalidades_total r
                 :: substantial_damage_or_more rest)%list
        /\ fatalities_aircraft_destroyed df
           = (fatalities_aircraft_destroyed before
              ++ fatalities_aircraft_destroyed rest)%list).
Proof.
  unfold substantial_damage_or_more, fatalities_aircraft_destroyed,
    fatalities_with_damage.
  split; [|split].
  - rewrite filter_twice. f_equal. apply filter_ext. intro r.
    unfold isin, text_ne. cbn [existsb]. rewrite orb_false_r.
    apply negb_orb.
  - rewrite filter_twice. f_equal. apply filter_ext. intro r.
    destruct (text_eq (aeronave_nivel_dano r) DESTRUIDA) eqn:E.
    + rewrite (destroyed_not_excluded _ E). reflexivity.
    + rewrite andb_false_r. reflexivity.
  - intros before r rest -> H.
    rewrite !filter_app, !map_app. cbn [filter]. rewrite H.
    cbn [text_ne text_eq isin existsb negb map]. repeat split.
Qed.

Lemma text_eq_unique (c : text) (s1 s2 : string) :
  text_eq c s1 = true -> text_eq c s2 = true -> s1 = s2.
Proof.
  destruct c as [t|]; simpl; [|discriminate].
  intros H1 H2. apply String.eqb_eq in H1, H2. congruence.
Qed.

(** X24: a factor is charted under one area at most and, among the
    human factors, under one conditioning at most: the individual and
    the organisational factors are human factors and share no row, and
    no row is both an operational and a human factor. *)
Theorem factor_selections (df : list factor) (r : factor) :
  (In r (individual_factors df) ->
   In r (human_factor_conditioning df)
   /\ ~ In r (organisational_factors df))
  /\ (In r (organisational_factors df) -> In r (human_factor_conditioning df))
  /\ (In r (aircraft_operation df) ->
      In r (operational_factor_conditioning df))
  /\ (In r (operational_factor_conditioning df) ->
      ~ In r (human_factor_conditioning df)).
Proof.
  unfold individual_factors, organisational_factors, aircraft_operation,
    human_factor_conditioning, operational_factor_conditioning.
  repeat split.
  - apply filter_In in H. tauto.
  - intro H'. apply filter_In in H, H'.
    destruct H as [_ H], H' as [_ H'].
    pose proof (text_eq_unique _ _ _ H H'). discriminate.
  - intro H. apply filter_In in H. tauto.
  - intro H. apply filter_In in H. tauto.
  - intros H H'. apply filter_In in H, H'.
    destruct H as [_ H], H' as [_ H'].
    pose proof (text_eq_unique _ _ _ H H'). discriminate.
Qed.
